(** * miracle-wm: leaf nodes of the tiling tree and the per-output window bookkeeping

    A shallow embedding of [src/leaf_node.cpp] (LeafNode), of the
    WindowMetadata accessors and of the parts of [src/output_content.cpp]
    (OutputContent) that look up the active workspace, select a window from a
    point and confirm a placement.

    Conventions.
    - A C++ [int] is a [Z] in the 32-bit range.  The sums and differences
      get_visible_area() forms are taken with their wrap-around ([wrap_int]);
      [get_visible_area_in_range] says that none of them overflows.
    - [geom::Rectangle] is a record of a top-left [Point] and a [Size].
    - A [miral::Window] is a handle; two windows are equal when the handles are.
    - Calls that leave the tiling core (TilingInterface, WindowManagerTools)
      are recorded, in order, in a list of calls. *)

From Stdlib Require Import ZArith List Bool Lia String QArith Qround.
Import ListNotations.

#[local] Open Scope Z_scope.

(** ** Geometry (mir::geometry) *)

Module geom.

Record Point := { x : Z; y : Z }.
Record Size := { width : Z; height : Z }.
Record Rectangle := { top_left : Point; size : Size }.

Definition left (r : Rectangle) : Z := x (top_left r).
Definition top (r : Rectangle) : Z := y (top_left r).
(** The right and bottom boundaries, which the rectangle does not include. *)
Definition right (r : Rectangle) : Z := left r + width (size r).
Definition bottom (r : Rectangle) : Z := top r + height (size r).

(** [inner] lies within [outer]: each edge of [inner] is on or inside the
    matching edge of [outer]. *)
Definition within (inner outer : Rectangle) : Prop :=
  left outer <= left inner /\ right inner <= right outer /\
  top outer <= top inner /\ bottom inner <= bottom outer.

(** The pixel at [p] belongs to the half-open rectangle [r]. *)
Definition covers (r : Rectangle) (p : Point) : Prop :=
  left r <= x p < right r /\ top r <= y p < bottom r.

End geom.

(** ** Enumerations *)

(** miracle::Direction, the index into the array [get_neighbors()] returns. *)
Inductive Direction := up | left | down | right.

Definition all_directions : list Direction := [up; left; down; right].

(** MirWindowState of mir_toolkit/common.h. *)
Inductive MirWindowState :=
| mir_window_state_unknown
| mir_window_state_restored
| mir_window_state_minimized
| mir_window_state_maximized
| mir_window_state_vertmaximized
| mir_window_state_fullscreen
| mir_window_state_horizmaximized
| mir_window_state_hidden
| mir_window_state_attached.

Definition MirWindowState_eqb (a b : MirWindowState) : bool :=
  match a, b with
  | mir_window_state_unknown, mir_window_state_unknown
  | mir_window_state_restored, mir_window_state_restored
  | mir_window_state_minimized, mir_window_state_minimized
  | mir_window_state_maximized, mir_window_state_maximized
  | mir_window_state_vertmaximized, mir_window_state_vertmaximized
  | mir_window_state_fullscreen, mir_window_state_fullscreen
  | mir_window_state_horizmaximized, mir_window_state_horizmaximized
  | mir_window_state_hidden, mir_window_state_hidden
  | mir_window_state_attached, mir_window_state_attached => true
  | _, _ => false
  end.

(** A window handle. *)
Definition Window := nat.

(** ** MiracleConfig, as far as LeafNode reads it *)

Record MiracleConfig := {
  get_inner_gaps_x : Z;
  get_inner_gaps_y : Z
}.

(** ** TilingWindowTree, as far as its callers in these sources use it *)

(** The tree's own source is not among the files; a tree is represented by the
    answers it gives to the three calls made on it here.
    [confirm_placement_on_display] gives the adjusted rectangle the tree
    produces for a proposed placement. *)
Record TilingWindowTreeOf (Node : Type) := {
  has_fullscreen_window : bool;
  select_window_from_point : Z -> Z -> option Node;
  tree_confirm_placement_on_display :
    Window -> MirWindowState -> geom.Rectangle -> geom.Rectangle
}.

Arguments has_fullscreen_window {Node}.
Arguments select_window_from_point {Node}.
Arguments tree_confirm_placement_on_display {Node}.

(** ** LeafNode *)

(** The fields of a LeafNode.  [get_neighbors] holds what Node::get_neighbors()
    answers for this leaf: that function walks the parent lane, is not part
    of leaf_node.cpp, and none of the LeafNode methods changes its answer. *)
#[local] Unset Elimination Schemes.
Inductive LeafNode := {
  window : Window;
  logical_area : geom.Rectangle;
  next_logical_area : option geom.Rectangle;
  next_state : option MirWindowState;
  before_shown_state : option MirWindowState;
  config : MiracleConfig;
  tree : TilingWindowTreeOf LeafNode;
  get_neighbors : Direction -> bool
}.
#[local] Set Elimination Schemes.

Definition TilingWindowTree := TilingWindowTreeOf LeafNode.

(** The values of a 32-bit [int]. *)
Definition in_int (z : Z) : Prop := - 2 ^ 31 <= z <= 2 ^ 31 - 1.

(** The [int] that a sum or a difference leaves: the result wraps around the
    32-bit range. *)
Definition wrap_int (z : Z) : Z := (z + 2 ^ 31) mod 2 ^ 32 - 2 ^ 31.

Definition int_add (a b : Z) : Z := wrap_int (a + b).
Definition int_sub (a b : Z) : Z := wrap_int (a - b).

(** [(int)(ceil((double)gap / 2.0))].  Every [int] is a double, and so is its
    half, so the double arithmetic is exact and the value is the ceiling of
    the rational [gap / 2]. *)
Definition half_gap (gap : Z) : Z := Qceiling (inject_Z gap / 2).

Definition get_logical_area (self : LeafNode) : geom.Rectangle :=
  match next_logical_area self with
  | Some r => r
  | None => logical_area self
  end.

Definition set_logical_area (self : LeafNode) (target_rect : geom.Rectangle) : LeafNode :=
  {| window := window self;
     logical_area := logical_area self;
     next_logical_area := Some target_rect;
     next_state := next_state self;
     before_shown_state := before_shown_state self;
     config := config self;
     tree := tree self;
     get_neighbors := get_neighbors self |}.

(** [x += half_gap_x] and [width -= half_gap_x] are int operations: a result
    outside the 32-bit range wraps around. *)
Definition get_visible_area (self : LeafNode) : geom.Rectangle :=
  let half_gap_x := half_gap (get_inner_gaps_x (config self)) in
  let half_gap_y := half_gap (get_inner_gaps_y (config self)) in
  let neighbors := get_neighbors self in
  let x := geom.x (geom.top_left (logical_area self)) in
  let y := geom.y (geom.top_left (logical_area self)) in
  let width := geom.width (geom.size (logical_area self)) in
  let height := geom.height (geom.size (logical_area self)) in
  let '(x, width) :=
    if neighbors left
    then (int_add x half_gap_x, int_sub width half_gap_x)
    else (x, width) in
  let width := if neighbors right then int_sub width half_gap_x else width in
  let '(y, height) :=
    if neighbors up
    then (int_add y half_gap_y, int_sub height half_gap_y)
    else (y, height) in
  let height := if neighbors down then int_sub height half_gap_y else height in
  {| geom.top_left := {| geom.x := x; geom.y := y |};
     geom.size := {| geom.width := width; geom.height := height |} |}.

(** None of the sums and differences get_visible_area() forms for this leaf
    leaves the [int] range. *)
Definition get_visible_area_in_range (self : LeafNode) : Prop :=
  let half_gap_x := half_gap (get_inner_gaps_x (config self)) in
  let half_gap_y := half_gap (get_inner_gaps_y (config self)) in
  let neighbors := get_neighbors self in
  let x := geom.x (geom.top_left (logical_area self)) in
  let y := geom.y (geom.top_left (logical_area self)) in
  let width := geom.width (geom.size (logical_area self)) in
  let height := geom.height (geom.size (logical_area self)) in
  (neighbors left = true ->
   in_int (x + half_gap_x) /\ in_int (width - half_gap_x)) /\
  (neighbors right = true ->
   in_int ((if neighbors left then width - half_gap_x else width) - half_gap_x)) /\
  (neighbors up = true ->
   in_int (y + half_gap_y) /\ in_int (height - half_gap_y)) /\
  (neighbors down = true ->
   in_int ((if neighbors up then height - half_gap_y else height) - half_gap_y)).

Definition get_min_width (self : LeafNode) : Z := 50.
Definition get_min_height (self : LeafNode) : Z := 50.

(** ** TilingInterface: the host, as LeafNode sees it *)

(** The calls a LeafNode makes that change the host. *)
Inductive HostCall :=
| call_change_state (w : Window) (state : MirWindowState)
| call_clip (w : Window) (r : geom.Rectangle)
| call_noclip (w : Window)
| call_set_rectangle (w : Window) (from to : geom.Rectangle).

(** TilingInterface is an abstract class; a host is any type that implements
    its two queries and its four commands. *)
Class TilingInterface (Host : Type) := {
  is_fullscreen : Host -> Window -> bool;
  get_state : Host -> Window -> MirWindowState;
  change_state : Host -> Window -> MirWindowState -> Host;
  clip : Host -> Window -> geom.Rectangle -> Host;
  noclip : Host -> Window -> Host;
  set_rectangle : Host -> Window -> geom.Rectangle -> geom.Rectangle -> Host
}.

Section LeafNodeMethods.

Context {Host : Type} `{TilingInterface Host}.

(** The host together with the commands it has received, oldest first. *)
Record World := {
  node_interface : Host;
  calls : list HostCall
}.

Definition run_call (h : Host) (c : HostCall) : Host :=
  match c with
  | call_change_state w s => change_state h w s
  | call_clip w r => clip h w r
  | call_noclip w => noclip h w
  | call_set_rectangle w from to => set_rectangle h w from to
  end.

(** Issue one command: the host executes it and the call is recorded. *)
Definition invoke (c : HostCall) (W : World) : World :=
  {| node_interface := run_call (node_interface W) c;
     calls := calls W ++ [c] |}.

Definition constrain (self : LeafNode) (W : World) : World :=
  if is_fullscreen (node_interface W) (window self)
  then invoke (call_noclip (window self)) W
  else invoke (call_clip (window self) (get_visible_area self)) W.

Definition show (self : LeafNode) : LeafNode :=
  {| window := window self;
     logical_area := logical_area self;
     next_logical_area := next_logical_area self;
     next_state := before_shown_state self;
     before_shown_state := None;
     config := config self;
     tree := tree self;
     get_neighbors := get_neighbors self |}.

Definition hide (self : LeafNode) (W : World) : LeafNode :=
  {| window := window self;
     logical_area := logical_area self;
     next_logical_area := next_logical_area self;
     next_state := Some mir_window_state_hidden;
     before_shown_state := Some (get_state (node_interface W) (window self));
     config := config self;
     tree := tree self;
     get_neighbors := get_neighbors self |}.

Definition set_next_state (self : LeafNode) (s : option MirWindowState) : LeafNode :=
  {| window := window self;
     logical_area := logical_area self;
     next_logical_area := next_logical_area self;
     next_state := s;
     before_shown_state := before_shown_state self;
     config := config self;
     tree := tree self;
     get_neighbors := get_neighbors self |}.

Definition toggle_fullscreen (self : LeafNode) (W : World) : LeafNode :=
  if is_fullscreen (node_interface W) (window self)
  then set_next_state self (Some mir_window_state_restored)
  else set_next_state self (Some mir_window_state_maximized).

Definition LeafNode_is_fullscreen (self : LeafNode) (W : World) : bool :=
  MirWindowState_eqb (get_state (node_interface W) (window self))
                     mir_window_state_maximized.

(** [logical_area = next_logical_area.value(); next_logical_area.reset();] *)
Definition take_next_logical_area (self : LeafNode) (r : geom.Rectangle) : LeafNode :=
  {| window := window self;
     logical_area := r;
     next_logical_area := None;
     next_state := next_state self;
     before_shown_state := before_shown_state self;
     config := config self;
     tree := tree self;
     get_neighbors := get_neighbors self |}.

Definition commit_changes (self : LeafNode) (W : World) : LeafNode * World :=
  let '(self, W) :=
    match next_state self with
    | Some s =>
        let W := invoke (call_change_state (window self) s) W in
        let W := constrain self W in
        (set_next_state self None, W)
    | None => (self, W)
    end in
  match next_logical_area self with
  | Some r =>
      let previous := get_visible_area self in
      let self := take_next_logical_area self r in
      if negb (is_fullscreen (node_interface W) (window self))
      then
        let W := invoke (call_set_rectangle (window self) previous (get_visible_area self)) W in
        let W := constrain self W in
        (self, W)
      else (self, W)
  | None => (self, W)
  end.

End LeafNodeMethods.

Arguments World Host : clear implicits.

(** ** WindowMetadata *)

Inductive WindowType := tiled | floating | other.

(** [tiling_node] is a shared pointer: [None] is the null pointer. *)
Record WindowMetadata := {
  type : WindowType;
  get_window : Window;
  tiling_node : option LeafNode
}.

Definition associate_to_node (self : WindowMetadata) (node : LeafNode) : WindowMetadata :=
  {| type := type self; get_window := get_window self; tiling_node := Some node |}.

Definition get_tiling_node (self : WindowMetadata) : option LeafNode :=
  match type self with
  | tiled => tiling_node self
  | _ => None
  end.

(** ** WorkspaceContent and OutputContent *)

Record WorkspaceContent := {
  get_workspace : Z;
  get_tree : TilingWindowTree;
  get_floating_windows : list Window
}.

(** miral::MinimalWindowManager, the floating window manager: the rectangle
    it answers when asked to confirm a placement. *)
Record MinimalWindowManager := {
  floating_confirm_placement_on_display :
    Window -> MirWindowState -> geom.Rectangle -> geom.Rectangle
}.

Record OutputContent := {
  workspaces : list WorkspaceContent;
  active_workspace : Z;
  active_window : Window;
  floating_window_manager : MinimalWindowManager
}.

Inductive exception := runtime_error (what : string).

(** A call either returns a value or leaves by throwing. *)
Inductive result (A : Type) :=
| returns (a : A)
| throws (e : exception).

Arguments returns {A}.
Arguments throws {A}.

Definition get_active_workspace_error : exception :=
  runtime_error
    "get_active_workspace: unable to find the active workspace. We shouldn't be here!".

(** The range-for loop of get_active_workspace over the workspaces left to visit. *)
Fixpoint get_active_workspace_from (infos : list WorkspaceContent) (active : Z)
  : result WorkspaceContent :=
  match infos with
  | [] => throws get_active_workspace_error
  | info :: rest =>
      if get_workspace info =? active
      then returns info
      else get_active_workspace_from rest active
  end.

Definition get_active_workspace (self : OutputContent) : result WorkspaceContent :=
  get_active_workspace_from (workspaces self) (active_workspace self).

Definition get_active_tree (self : OutputContent) : result TilingWindowTree :=
  match get_active_workspace self with
  | returns workspace => returns (get_tree workspace)
  | throws e => throws e
  end.

(** [None] stands for the dereference of a null tiling node.  The rectangle
    the tree produces goes to the local [modified_placement]; the [default:]
    branch of the switch, which logs an error, is the branch of [other]. *)
Definition confirm_placement_on_display
    (self : OutputContent) (metadata : WindowMetadata)
    (new_state : MirWindowState) (new_placement : geom.Rectangle)
  : option geom.Rectangle :=
  let modified_placement := new_placement in
  match type metadata with
  | tiled =>
      match get_tiling_node metadata with
      | Some node =>
          let modified_placement :=
            tree_confirm_placement_on_display (tree node)
              (get_window metadata) new_state modified_placement in
          Some new_placement
      | None => None
      end
  | floating =>
      Some (floating_confirm_placement_on_display (floating_window_manager self)
              (get_window metadata) new_state new_placement)
  | other => Some new_placement
  end.

(** ** OutputContent::select_window_from_point *)

(** What select_window_from_point does outside OutputContent, in order: the
    hit test it asks of the tree and the selections it makes through
    WindowManagerTools. *)
Inductive Effect :=
| tree_select_window_from_point (x y : Z)
| tools_select_active_window (w : Window).

(** How the loop over the floating windows ends: by the [return] in its body,
    or by running to the end with a value of [floating_index]. *)
Inductive LoopExit :=
| loop_return
| loop_end (floating_index : Z).

Section SelectWindowFromPoint.

(** miral::Window::top_left, miral::Window::size and
    geom::Rectangle::contains(Point) belong to Mir. *)
Variable Window_top_left : Window -> geom.Point.
Variable Window_size : Window -> geom.Size.
Variable Rectangle_contains : geom.Rectangle -> geom.Point -> bool.

Definition window_area (w : Window) : geom.Rectangle :=
  {| geom.top_left := Window_top_left w; geom.size := Window_size w |}.

Definition floating_window_at (w : Window) (x y : Z) : bool :=
  Rectangle_contains (window_area w) {| geom.x := x; geom.y := y |}.

(** The test of the loop's first branch: [w] is the active window and the
    point is in its area. *)
Definition floating_active_at (active_window : Window) (x y : Z) (w : Window) : bool :=
  (w =? active_window)%nat && floating_window_at w x y.

(** [for (int i = 0; i < floating.size(); i++)], from index [i] on, with
    [rest] the windows [floating[i]], [floating[i+1]], ... *)
Fixpoint floating_loop (active_window : Window) (x y : Z)
    (rest : list Window) (i : Z) (floating_index : Z) : LoopExit :=
  match rest with
  | [] => loop_end floating_index
  | floating_i :: rest =>
      if (floating_i =? active_window)%nat && floating_window_at floating_i x y
      then loop_return
      else if floating_window_at floating_i x y
      then floating_loop active_window x y rest (i + 1) i
      else floating_loop active_window x y rest (i + 1) floating_index
  end.

(** The body of select_window_from_point once the active workspace is at
    hand.  [floating[floating_index]] is within the list whenever it is read
    ([floating_loop_index_valid]). *)
Definition select_window_from_point_in
    (self : OutputContent) (workspace : WorkspaceContent) (x y : Z) : list Effect :=
  if has_fullscreen_window (get_tree workspace) then []
  else
    let floating := get_floating_windows workspace in
    match floating_loop (active_window self) x y floating 0 (-1) with
    | loop_return => []
    | loop_end floating_index =>
        if floating_index >=? 0
        then
          match nth_error floating (Z.to_nat floating_index) with
          | Some w => [tools_select_active_window w]
          | None => []
          end
        else
          tree_select_window_from_point x y ::
          match select_window_from_point (get_tree workspace) x y with
          | Some node =>
              if negb (window node =? active_window self)%nat
              then [tools_select_active_window (window node)]
              else []
          | None => []
          end
    end.

Definition OutputContent_select_window_from_point
    (self : OutputContent) (x y : Z) : result (list Effect) :=
  match get_active_workspace self with
  | returns workspace => returns (select_window_from_point_in self workspace x y)
  | throws e => throws e
  end.

End SelectWindowFromPoint.

(** ** Sample data used by the examples *)

(** A host that keeps nothing but the state of each window, and that calls
    a window fullscreen when its state is the one toggle_fullscreen stages. *)
Definition StateTable := Window -> MirWindowState.

#[export] Instance StateTable_interface : TilingInterface StateTable := {
  is_fullscreen h w := MirWindowState_eqb (h w) mir_window_state_maximized;
  get_state h w := h w;
  change_state h w s := fun w' => if (w' =? w)%nat then s else h w';
  clip h _ _ := h;
  noclip h _ := h;
  set_rectangle h _ _ _ := h
}.

Definition all_restored : StateTable := fun _ => mir_window_state_restored.

Definition rect (x y w h : Z) : geom.Rectangle :=
  {| geom.top_left := {| geom.x := x; geom.y := y |};
     geom.size := {| geom.width := w; geom.height := h |} |}.

Definition empty_tree : TilingWindowTree :=
  {| has_fullscreen_window := false;
     select_window_from_point := fun _ _ => None;
     tree_confirm_placement_on_display := fun _ _ r => r |}.

Definition only (d : Direction) : Direction -> bool :=
  fun d' =>
    match d, d' with
    | up, up | left, left | down, down | right, right => true
    | _, _ => false
    end.

(** A leaf as the LeafNode constructor leaves it, with its window associated. *)
Definition new_leaf (w : Window) (area : geom.Rectangle) (gap_x gap_y : Z)
    (neighbors : Direction -> bool) : LeafNode :=
  {| window := w;
     logical_area := area;
     next_logical_area := None;
     next_state := None;
     before_shown_state := None;
     config := {| get_inner_gaps_x := gap_x; get_inner_gaps_y := gap_y |};
     tree := empty_tree;
     get_neighbors := neighbors |}.

(** ** The visible area *)

Definition sum_Z (l : list Z) : Z := fold_right Z.add 0 l.

(** The half gap that belongs to a side. *)
Definition side_gap (c : MiracleConfig) (d : Direction) : Z :=
  match d with
  | left | right => half_gap (get_inner_gaps_x c)
  | up | down => half_gap (get_inner_gaps_y c)
  end.

(** The sides on which the leaf has a neighbor. *)
Definition neighbor_sides (self : LeafNode) : list Direction :=
  filter (get_neighbors self) all_directions.

(** ** The calls of a commit *)

Section CommitCalls.

Context {Host : Type} `{TilingInterface Host}.

(** The single call constrain() makes on a host in state [h]. *)
Definition constrain_call (self : LeafNode) (h : Host) : HostCall :=
  if is_fullscreen h (window self)
  then call_noclip (window self)
  else call_clip (window self) (get_visible_area self).

(** A host after a sequence of calls. *)
Definition run_calls (h : Host) (cs : list HostCall) : Host :=
  fold_left run_call cs h.

Definition is_change_state (c : HostCall) : bool :=
  match c with
  | call_change_state _ _ => true
  | _ => false
  end.

End CommitCalls.

(** Two leaves side by side on a 1920x1080 output, gaps of 10 and 10. *)
Definition left_leaf : LeafNode := new_leaf 1%nat (rect 0 0 960 1080) 10 10 (only right).
Definition right_leaf : LeafNode := new_leaf 2%nat (rect 960 0 960 1080) 10 10 (only left).

Definition sample_world : World StateTable :=
  {| node_interface := all_restored; calls := [] |}.

(** A host that reports mir_window_state_fullscreen for every window. *)
Definition fullscreen_world : World StateTable :=
  {| node_interface := fun _ => mir_window_state_fullscreen; calls := [] |}.

(** The left leaf with a pending state and a pending area. *)
Definition left_leaf_pending (state : MirWindowState) : LeafNode :=
  set_next_state (set_logical_area left_leaf (rect 0 0 640 1080)) (Some state).

(** ** Sample outputs *)

(** geom::Rectangle::contains(Point) on the half-open rectangle; an empty
    rectangle contains nothing. *)
Definition Rectangle_contains_point (r : geom.Rectangle) (p : geom.Point) : bool :=
  negb (geom.width (geom.size r) =? 0) && negb (geom.height (geom.size r) =? 0)
  && (geom.left r <=? geom.x p) && (geom.x p <? geom.right r)
  && (geom.top r <=? geom.y p) && (geom.y p <? geom.bottom r).

(** Floating windows 10 and 11 overlap around (200,200); every other window
    sits at the origin with no size. *)
Definition sample_top_left (w : Window) : geom.Point :=
  match w with
  | 10%nat => {| geom.x := 100; geom.y := 100 |}
  | 11%nat => {| geom.x := 150; geom.y := 150 |}
  | _ => {| geom.x := 0; geom.y := 0 |}
  end.

Definition sample_size (w : Window) : geom.Size :=
  match w with
  | 10%nat | 11%nat => {| geom.width := 200; geom.height := 200 |}
  | _ => {| geom.width := 0; geom.height := 0 |}
  end.

(** A tree that holds the two sample leaves: its hit test goes by the
    visible areas, and it adjusts every placement to the left leaf's visible
    area. *)
Definition two_leaf_tree (fullscreen : bool) : TilingWindowTree :=
  {| has_fullscreen_window := fullscreen;
     select_window_from_point := fun x y =>
       if Rectangle_contains_point (get_visible_area left_leaf) {| geom.x := x; geom.y := y |}
       then Some left_leaf
       else if Rectangle_contains_point (get_visible_area right_leaf) {| geom.x := x; geom.y := y |}
       then Some right_leaf
       else None;
     tree_confirm_placement_on_display := fun _ _ _ => get_visible_area left_leaf |}.

(** The floating window manager of the samples moves every placement by 20
    pixels each way. *)
Definition sample_floating_window_manager : MinimalWindowManager :=
  {| floating_confirm_placement_on_display := fun _ _ r =>
       {| geom.top_left := {| geom.x := geom.left r + 20; geom.y := geom.top r + 20 |};
          geom.size := geom.size r |} |}.

Definition sample_workspace (key : Z) (fullscreen : bool) (floating : list Window)
  : WorkspaceContent :=
  {| get_workspace := key;
     get_tree := two_leaf_tree fullscreen;
     get_floating_windows := floating |}.

(** An output with workspaces 1, 2 and 3; workspace 2 has the floating
    windows 10 and 11, workspace 3 a fullscreen window. *)
Definition sample_output (active : Z) (focus : Window) : OutputContent :=
  {| workspaces := [sample_workspace 1 false [];
                    sample_workspace 2 false [10%nat; 11%nat];
                    sample_workspace 3 true [10%nat; 11%nat]];
     active_workspace := active;
     active_window := focus;
     floating_window_manager := sample_floating_window_manager |}.

(** The left leaf, owned by the sample tree, and the metadata of its window. *)
Definition tiled_left_leaf : LeafNode :=
  {| window := 1%nat;
     logical_area := rect 0 0 960 1080;
     next_logical_area := None;
     next_state := None;
     before_shown_state := None;
     config := {| get_inner_gaps_x := 10; get_inner_gaps_y := 10 |};
     tree := two_leaf_tree false;
     get_neighbors := only right |}.

Definition tiled_metadata : WindowMetadata :=
  associate_to_node
    {| type := tiled; get_window := 1%nat; tiling_node := None |} tiled_left_leaf.

Definition floating_metadata : WindowMetadata :=
  {| type := floating; get_window := 10%nat; tiling_node := None |}.

(** select_window_from_point with the sample window geometry. *)
Definition sample_select_window_from_point
    (self : OutputContent) (x y : Z) : result (list Effect) :=
  OutputContent_select_window_from_point
    sample_top_left sample_size Rectangle_contains_point self x y.

(** ** LeafNode: the calls of a commit, and hosts *)

(** The window a call is about. *)
Definition call_window (c : HostCall) : Window :=
  match c with
  | call_change_state w _ => w
  | call_clip w _ => w
  | call_noclip w => w
  | call_set_rectangle w _ _ => w
  end.

Definition is_set_rectangle (c : HostCall) : bool :=
  match c with
  | call_set_rectangle _ _ _ => true
  | _ => false
  end.

Definition count_calls (p : HostCall -> bool) (cs : list HostCall) : nat :=
  List.length (filter p cs).

Section HostLaws.

Context {Host : Type} `{TilingInterface Host}.

(** A host that keeps its side of the interface: get_state answers the state
    last given to change_state for the window, clip, noclip and
    set_rectangle leave the states alone, and is_fullscreen is decided by the
    window's state through [fullscreen_state]. *)
Record tracks_state (fullscreen_state : MirWindowState -> bool) : Prop := {
  get_state_change_state :
    forall h w s, get_state (change_state h w s) w = s;
  get_state_clip :
    forall h w r w', get_state (clip h w r) w' = get_state h w';
  get_state_noclip :
    forall h w w', get_state (noclip h w) w' = get_state h w';
  get_state_set_rectangle :
    forall h w from to w', get_state (set_rectangle h w from to) w' = get_state h w';
  is_fullscreen_get_state :
    forall h w, is_fullscreen h w = fullscreen_state (get_state h w)
}.

End HostLaws.

(** The states the sample host calls fullscreen. *)
Definition maximized_only (s : MirWindowState) : bool :=
  MirWindowState_eqb s mir_window_state_maximized.

(** ** WindowMetadata: the remaining members *)

(** What a WindowMetadata knows of its workspace: the workspace and the
    output the workspace answers to get_output(), a pointer that may be null. *)
Record WorkspaceLink := {
  link_workspace : WorkspaceContent;
  link_get_output : option OutputContent
}.

(** A WindowMetadata with the members [WindowMetadata] leaves out.
    [md_workspace] is a shared pointer: [None] is the null pointer the
    two-argument constructor stores. *)
Record WindowMetadataMembers := {
  metadata : WindowMetadata;
  md_workspace : option WorkspaceLink;
  restore_state : MirWindowState;
  is_pinned : bool;
  md_animation_handle : Z
}.

Definition set_restore_state (self : WindowMetadataMembers) (state : MirWindowState)
  : WindowMetadataMembers :=
  {| metadata := metadata self;
     md_workspace := md_workspace self;
     restore_state := state;
     is_pinned := is_pinned self;
     md_animation_handle := md_animation_handle self |}.

Definition consume_restore_state (self : WindowMetadataMembers) : MirWindowState :=
  restore_state self.

Definition toggle_pin_to_desktop (self : WindowMetadataMembers) : WindowMetadataMembers :=
  match type (metadata self) with
  | floating =>
      {| metadata := metadata self;
         md_workspace := md_workspace self;
         restore_state := restore_state self;
         is_pinned := negb (is_pinned self);
         md_animation_handle := md_animation_handle self |}
  | _ => self
  end.

(** [None] stands for the dereference of a null workspace. *)
Definition is_focused (self : WindowMetadataMembers) : option bool :=
  match md_workspace self with
  | None => None
  | Some workspace =>
      match link_get_output workspace with
      | None => Some false
      | Some output => Some (active_window output =? get_window (metadata self))%nat
      end
  end.

Definition set_workspace (self : WindowMetadataMembers) (in_workspace : option WorkspaceLink)
  : WindowMetadataMembers :=
  {| metadata := metadata self;
     md_workspace := in_workspace;
     restore_state := restore_state self;
     is_pinned := is_pinned self;
     md_animation_handle := md_animation_handle self |}.

(** The pointer get_output() returns; [None] is the null pointer. *)
Definition get_output (self : WindowMetadataMembers) : option OutputContent :=
  match md_workspace self with
  | None => None
  | Some workspace => link_get_output workspace
  end.

(** ** OutputContent: the list of workspaces *)

Definition set_workspaces (self : OutputContent) (infos : list WorkspaceContent)
  : OutputContent :=
  {| workspaces := infos;
     active_workspace := active_workspace self;
     active_window := active_window self;
     floating_window_manager := floating_window_manager self |}.

Definition set_active_workspace (self : OutputContent) (key : Z) : OutputContent :=
  {| workspaces := workspaces self;
     active_workspace := key;
     active_window := active_window self;
     floating_window_manager := floating_window_manager self |}.

Definition set_active_window (self : OutputContent) (w : Window) : OutputContent :=
  {| workspaces := workspaces self;
     active_workspace := active_workspace self;
     active_window := w;
     floating_window_manager := floating_window_manager self |}.

Section Workspaces.

(** The tree the WorkspaceContent constructor makes and TilingWindowTree's
    is_empty() are defined outside these sources. *)
Variable new_tree : TilingWindowTree.
Variable TilingWindowTree_is_empty : TilingWindowTree -> bool.

(** [std::make_shared<WorkspaceContent>(this, tools, workspace, config, node_interface)] *)
Definition WorkspaceContent_new (workspace : Z) : WorkspaceContent :=
  {| get_workspace := workspace;
     get_tree := new_tree;
     get_floating_windows := [] |}.

Definition advise_new_workspace (self : OutputContent) (workspace : Z) : OutputContent :=
  set_workspaces self (workspaces self ++ [WorkspaceContent_new workspace]).

(** The loop of advise_workspace_deleted: erase the first workspace with the
    key and return. *)
Fixpoint advise_workspace_deleted_from (infos : list WorkspaceContent) (workspace : Z)
  : list WorkspaceContent :=
  match infos with
  | [] => []
  | it :: rest =>
      if get_workspace it =? workspace
      then rest
      else it :: advise_workspace_deleted_from rest workspace
  end.

Definition advise_workspace_deleted (self : OutputContent) (workspace : Z) : OutputContent :=
  set_workspaces self (advise_workspace_deleted_from (workspaces self) workspace).

(** OutputContent with the members advise_workspace_active reads beside
    those of [OutputContent]. *)
Record OutputContentMembers := {
  content : OutputContent;
  area : geom.Rectangle;
  animation_handle : Z
}.

(** What advise_workspace_active does outside OutputContent, in order.  The
    two callbacks given to the animator capture [from] and [to]; they run
    later, from the animator. *)
Inductive WorkspaceEffect :=
| animator_workspace_move_to
    (handle : Z) (travel_distance : Z) (from to : option WorkspaceContent)
| workspace_show (to : WorkspaceContent)
| workspace_manager_delete_workspace (key : Z).

(** How the loop of advise_workspace_active ends: by its [return true], or at
    the end of the list with [to] and [from]. *)
Inductive ActiveLoopExit :=
| active_loop_return_true
| active_loop_end (to from : option WorkspaceContent).

Fixpoint advise_workspace_active_loop (infos : list WorkspaceContent)
    (active_workspace key : Z) (to from : option WorkspaceContent) : ActiveLoopExit :=
  match infos with
  | [] => active_loop_end to from
  | workspace :: rest =>
      let from :=
        if get_workspace workspace =? active_workspace then Some workspace else from in
      if get_workspace workspace =? key
      then
        if active_workspace =? key
        then active_loop_return_true
        else advise_workspace_active_loop rest active_workspace key (Some workspace) from
      else advise_workspace_active_loop rest active_workspace key to from
  end.

(** [None] stands for the call of show() on a null [to]. *)
Definition advise_workspace_active (self : OutputContentMembers) (key : Z)
  : option (bool * OutputContentMembers * list WorkspaceEffect) :=
  match advise_workspace_active_loop (workspaces (content self))
          (active_workspace (content self)) key None None with
  | active_loop_return_true => Some (true, self, [])
  | active_loop_end to from =>
      let travel_distance :=
        if active_workspace (content self) >? key
        then - geom.width (geom.size (area self))
        else geom.width (geom.size (area self)) in
      match to with
      | None => None
      | Some to_workspace =>
          let self' :=
            {| content := set_active_workspace (content self) key;
               area := area self;
               animation_handle := animation_handle self |} in
          Some (true, self',
                [animator_workspace_move_to (animation_handle self) travel_distance from to;
                 workspace_show to_workspace]
                ++ match from with
                   | Some from_workspace =>
                       if TilingWindowTree_is_empty (get_tree from_workspace)
                          && match get_floating_windows from_workspace with
                             | [] => true
                             | _ => false
                             end
                       then [workspace_manager_delete_workspace (get_workspace from_workspace)]
                       else []
                   | None => []
                   end)
      end
  end.

End Workspaces.

(** ** OutputContent: windows *)

(** miral::WindowInfo, as far as advise_new_window reads it. *)
Record WindowInfo := {
  info_window : Window;
  info_state : MirWindowState
}.

(** What advise_new_window does outside OutputContent, in order.
    [new_window_modify_window] is the tools.modify_window call that stores the
    metadata as the window's userdata. *)
Inductive NewWindowEffect :=
| new_window_tree_advise_new_window (window_info : WindowInfo)
| new_window_floating_advise_new_window (window_info : WindowInfo)
| new_window_select_active_window (w : Window)
| new_window_modify_window (w : Window) (userdata : WindowMetadata)
| new_window_log_error.

Section AdviseNewWindow.

(** TilingWindowTree::advise_new_window gives the leaf made for the window. *)
Variable TilingWindowTree_advise_new_window : TilingWindowTree -> WindowInfo -> LeafNode.

(** The pointer returned is null, [None], when no metadata was made. *)
Definition advise_new_window (self : OutputContent) (window_info : WindowInfo)
    (type : WindowType) : result (option WindowMetadata * list NewWindowEffect) :=
  match type with
  | tiled =>
      match get_active_tree self with
      | throws e => throws e
      | returns active_tree =>
          let node := TilingWindowTree_advise_new_window active_tree window_info in
          match get_active_workspace self with
          | throws e => throws e
          | returns _ =>
              let metadata :=
                associate_to_node
                  {| type := tiled;
                     get_window := info_window window_info;
                     tiling_node := None |} node in
              returns (Some metadata,
                       [new_window_tree_advise_new_window window_info;
                        new_window_modify_window (info_window window_info) metadata])
          end
      end
  | floating =>
      returns (None,
               [new_window_floating_advise_new_window window_info; new_window_log_error])
  | other =>
      let metadata :=
        {| type := other;
           get_window := info_window window_info;
           tiling_node := None |} in
      returns (Some metadata,
               (if MirWindowState_eqb (info_state window_info) mir_window_state_attached
                then [new_window_select_active_window (info_window window_info)]
                else [])
               ++ [new_window_modify_window (info_window window_info) metadata])
  end.

End AdviseNewWindow.

Section AllocatePosition.

(** miral::WindowSpecification, window_helpers::is_tileable and
    TilingWindowTree::allocate_position are defined outside these sources. *)
Variable WindowSpecification : Type.
Variable is_tileable : WindowSpecification -> bool.
Variable TilingWindowTree_allocate_position :
  TilingWindowTree -> WindowSpecification -> WindowSpecification.

(** The type returned, with the specification as the call leaves it. *)
Definition allocate_position (self : OutputContent)
    (requested_specification : WindowSpecification)
  : result (WindowType * WindowSpecification) :=
  if negb (is_tileable requested_specification)
  then returns (other, requested_specification)
  else
    match get_active_tree self with
    | throws e => throws e
    | returns active_tree =>
        returns (tiled,
                 TilingWindowTree_allocate_position active_tree requested_specification)
    end.

End AllocatePosition.

(** What advise_focus_gained does outside OutputContent. *)
Inductive FocusEffect :=
| focus_tree_advise_focus_gained (w : Window)
| focus_floating_advise_focus_gained (w : Window)
| focus_log_error.

(** [None] stands for the dereference of a null tiling node. *)
Definition advise_focus_gained (self : OutputContent) (metadata : WindowMetadata)
  : option (OutputContent * list FocusEffect) :=
  let self := set_active_window self (get_window metadata) in
  match type metadata with
  | tiled =>
      match get_tiling_node metadata with
      | Some node => Some (self, [focus_tree_advise_focus_gained (get_window metadata)])
      | None => None
      end
  | floating => Some (self, [focus_floating_advise_focus_gained (get_window metadata)])
  | other => Some (self, [focus_log_error])
  end.

(** The loop of find_window_on_active_workspace_matching_predicate over the
    floating windows; [None] is the null window returned after the loop. *)
Fixpoint first_floating_matching (f : Window -> bool) (floating : list Window)
  : option Window :=
  match floating with
  | [] => None
  | w :: rest => if f w then Some w else first_floating_matching f rest
  end.

(** The tree's find_node is run with the predicate first and what it finds
    is dropped. *)
Definition find_window_on_active_workspace_matching_predicate
    (self : OutputContent) (f : Window -> bool) : result (option Window) :=
  match get_active_workspace self with
  | throws e => throws e
  | returns workspace =>
      returns (first_floating_matching f (get_floating_windows workspace))
  end.

(** The last workspace of a list that has the key, or [otherwise] when none
    has it. *)
Fixpoint last_workspace_with (infos : list WorkspaceContent) (key : Z)
    (otherwise : option WorkspaceContent) : option WorkspaceContent :=
  match infos with
  | [] => otherwise
  | workspace :: rest =>
      last_workspace_with rest key
        (if get_workspace workspace =? key then Some workspace else otherwise)
  end.

(** Some workspace of the list has the key. *)
Definition has_workspace (infos : list WorkspaceContent) (key : Z) : bool :=
  existsb (fun workspace => get_workspace workspace =? key) infos.

(** The sample output with its area and animation handle. *)
Definition sample_output_members (active : Z) : OutputContentMembers :=
  {| content := sample_output active 0%nat;
     area := rect 0 0 1920 1080;
     animation_handle := 1 |}.

(** A tree's advise_new_window for the samples: a 960x1080 leaf for the
    window. *)
Definition sample_advise_new_window (_ : TilingWindowTree) (window_info : WindowInfo)
  : LeafNode :=
  new_leaf (info_window window_info) (rect 0 0 960 1080) 10 10 (only right).

Definition sample_window_info : WindowInfo :=
  {| info_window := 5%nat; info_state := mir_window_state_restored |}.

(** A floating window's metadata whose workspace is on the sample output. *)
Definition sample_floating_members (focus : Window) : WindowMetadataMembers :=
  {| metadata := floating_metadata;
     md_workspace :=
       Some {| link_workspace := sample_workspace 2 false [10%nat; 11%nat];
               link_get_output := Some (sample_output 2 focus) |};
     restore_state := mir_window_state_restored;
     is_pinned := false;
     md_animation_handle := 0 |}.

(** Rewriting with the laws of a host that tracks states. *)
Ltac host_laws Hlaws :=
  repeat first
    [ rewrite (is_fullscreen_get_state _ Hlaws)
    | rewrite (get_state_change_state _ Hlaws)
    | rewrite (get_state_clip _ Hlaws)
    | rewrite (get_state_noclip _ Hlaws)
    | rewrite (get_state_set_rectangle _ Hlaws)
    | progress cbn ].

(** Case analysis on a fullscreen query whose host contains no other
    pending query, so that queries are decided in the order they are made. *)
Ltac innermost_is_fullscreen :=
  match goal with
  | |- context [is_fullscreen ?h ?w] =>
      lazymatch h with
      | context [is_fullscreen] => fail
      | _ => destruct (is_fullscreen h w) eqn:?; cbn
      end
  end.

(** * Properties *)

(** ** The visible area: properties *)

Lemma half_gap_div (gap : Z) : half_gap gap = (gap + 1) / 2.
Proof.
  unfold half_gap, Qceiling, Qfloor, Qdiv, Qmult, Qinv, Qopp, inject_Z; simpl.
  rewrite Z.mul_1_r.
  pose proof (Z.div_mod (- gap) 2 ltac:(lia)) as Hn.
  pose proof (Z.mod_pos_bound (- gap) 2 ltac:(lia)) as Hnb.
  pose proof (Z.div_mod (gap + 1) 2 ltac:(lia)) as Hp.
  pose proof (Z.mod_pos_bound (gap + 1) 2 ltac:(lia)) as Hpb.
  lia.
Qed.

(** [half_gap gap] is the least integer that is at least [gap / 2]. *)
Lemma half_gap_is_ceiling (gap : Z) :
  2 * half_gap gap - 2 < gap <= 2 * half_gap gap.
Proof.
  rewrite half_gap_div.
  pose proof (Z.div_mod (gap + 1) 2 ltac:(lia)) as Hp.
  pose proof (Z.mod_pos_bound (gap + 1) 2 ltac:(lia)) as Hpb.
  lia.
Qed.

Lemma half_gap_nonneg (gap : Z) : 0 <= gap -> 0 <= half_gap gap.
Proof. pose proof (half_gap_is_ceiling gap); lia. Qed.

Lemma within_covers (inner outer : geom.Rectangle) :
  geom.within inner outer ->
  forall p, geom.covers inner p -> geom.covers outer p.
Proof. unfold geom.within, geom.covers; intros Hw p Hp; lia. Qed.

Lemma wrap_int_id (z : Z) : in_int z -> wrap_int z = z.
Proof.
  unfold in_int, wrap_int.
  change (2 ^ 31) with 2147483648. change (2 ^ 32) with 4294967296.
  intros Hz. rewrite Z.mod_small by lia. lia.
Qed.

Lemma wrap_int_in_int (z : Z) : in_int (wrap_int z).
Proof.
  unfold in_int, wrap_int.
  change (2 ^ 31) with 2147483648. change (2 ^ 32) with 4294967296.
  pose proof (Z.mod_pos_bound (z + 2147483648) 4294967296 ltac:(lia)). lia.
Qed.

(** Without overflow the fields of the visible area are the sums and
    differences themselves. *)
Lemma get_visible_area_fields (self : LeafNode) :
  get_visible_area_in_range self ->
  let v := get_visible_area self in
  let l := logical_area self in
  let n := get_neighbors self in
  let half_gap_x := half_gap (get_inner_gaps_x (config self)) in
  let half_gap_y := half_gap (get_inner_gaps_y (config self)) in
  geom.x (geom.top_left v)
    = geom.x (geom.top_left l) + (if n left then half_gap_x else 0) /\
  geom.width (geom.size v)
    = geom.width (geom.size l) - (if n left then half_gap_x else 0)
      - (if n right then half_gap_x else 0) /\
  geom.y (geom.top_left v)
    = geom.y (geom.top_left l) + (if n up then half_gap_y else 0) /\
  geom.height (geom.size v)
    = geom.height (geom.size l) - (if n up then half_gap_y else 0)
      - (if n down then half_gap_y else 0).
Proof.
  unfold get_visible_area_in_range, get_visible_area, int_add, int_sub.
  cbn zeta. intros (Hl & Hr & Hu & Hd).
  destruct (get_neighbors self left), (get_neighbors self right),
    (get_neighbors self up), (get_neighbors self down); cbn.
  all: repeat match goal with
         | H : true = true -> _ |- _ => specialize (H eq_refl)
         | H : false = true -> _ |- _ => clear H
         | H : _ /\ _ |- _ => destruct H
         end.
  all: repeat match goal with
         | H : in_int ?z |- _ => progress rewrite (wrap_int_id z H)
         end.
  all: repeat split; lia.
Qed.

Lemma get_visible_area_edges (self : LeafNode) :
  get_visible_area_in_range self ->
  let v := get_visible_area self in
  let l := logical_area self in
  let n := get_neighbors self in
  geom.left v = geom.left l + (if n left then side_gap (config self) left else 0) /\
  geom.right v = geom.right l - (if n right then side_gap (config self) right else 0) /\
  geom.top v = geom.top l + (if n up then side_gap (config self) up else 0) /\
  geom.bottom v = geom.bottom l - (if n down then side_gap (config self) down else 0).
Proof.
  intros Hrange.
  destruct (get_visible_area_fields self Hrange) as (Hx & Hw & Hy & Hh).
  cbn zeta in *.
  unfold geom.right, geom.bottom, geom.left, geom.top, side_gap.
  rewrite Hx, Hw, Hy, Hh.
  destruct (get_neighbors self left), (get_neighbors self right),
    (get_neighbors self up), (get_neighbors self down); lia.
Qed.

Lemma get_visible_area_width (self : LeafNode) :
  get_visible_area_in_range self ->
  geom.width (geom.size (logical_area self))
  - geom.width (geom.size (get_visible_area self))
  = sum_Z (map (side_gap (config self)) (filter (get_neighbors self) [left; right])).
Proof.
  intros Hrange.
  destruct (get_visible_area_fields self Hrange) as (_ & Hw & _ & _).
  cbn zeta in Hw. rewrite Hw. cbn.
  destruct (get_neighbors self left), (get_neighbors self right); cbn; lia.
Qed.

Lemma get_visible_area_height (self : LeafNode) :
  get_visible_area_in_range self ->
  geom.height (geom.size (logical_area self))
  - geom.height (geom.size (get_visible_area self))
  = sum_Z (map (side_gap (config self)) (filter (get_neighbors self) [up; down])).
Proof.
  intros Hrange.
  destruct (get_visible_area_fields self Hrange) as (_ & _ & _ & Hh).
  cbn zeta in Hh. rewrite Hh. cbn.
  destruct (get_neighbors self up), (get_neighbors self down); cbn; lia.
Qed.

(** The half gaps of the neighbor sides add up axis by axis. *)
Lemma neighbor_sides_by_axis (self : LeafNode) :
  sum_Z (map (side_gap (config self)) (neighbor_sides self))
  = sum_Z (map (side_gap (config self)) (filter (get_neighbors self) [left; right]))
    + sum_Z (map (side_gap (config self)) (filter (get_neighbors self) [up; down])).
Proof.
  unfold neighbor_sides, all_directions; cbn.
  destruct (get_neighbors self left), (get_neighbors self right),
    (get_neighbors self up), (get_neighbors self down); cbn; lia.
Qed.

Lemma get_visible_area_within (self : LeafNode) :
  get_visible_area_in_range self ->
  0 <= get_inner_gaps_x (config self) ->
  0 <= get_inner_gaps_y (config self) ->
  geom.within (get_visible_area self) (logical_area self).
Proof.
  intros Hrange Hx Hy.
  apply half_gap_nonneg in Hx. apply half_gap_nonneg in Hy.
  destruct (get_visible_area_edges self Hrange) as (Hl & Hr & Ht & Hb).
  unfold geom.within, geom.right, geom.bottom, geom.left, geom.top, side_gap in *.
  destruct (get_neighbors self left), (get_neighbors self right),
    (get_neighbors self up), (get_neighbors self down); lia.
Qed.

(** With gaps and coordinates of at most 2^30 in size, every sum and
    difference get_visible_area() can form is an [int]. *)
Lemma get_visible_area_in_int_range (self : LeafNode) :
  let l := logical_area self in
  let half_gap_x := half_gap (get_inner_gaps_x (config self)) in
  let half_gap_y := half_gap (get_inner_gaps_y (config self)) in
  0 <= get_inner_gaps_x (config self) <= 2 ^ 30 ->
  0 <= get_inner_gaps_y (config self) <= 2 ^ 30 ->
  - 2 ^ 30 <= geom.left l <= 2 ^ 30 ->
  - 2 ^ 30 <= geom.top l <= 2 ^ 30 ->
  - 2 ^ 30 <= geom.width (geom.size l) <= 2 ^ 30 ->
  - 2 ^ 30 <= geom.height (geom.size l) <= 2 ^ 30 ->
  (in_int half_gap_x /\ in_int (geom.left l + half_gap_x) /\
   in_int (geom.width (geom.size l) - half_gap_x) /\
   in_int (geom.width (geom.size l) - half_gap_x - half_gap_x)) /\
  (in_int half_gap_y /\ in_int (geom.top l + half_gap_y) /\
   in_int (geom.height (geom.size l) - half_gap_y) /\
   in_int (geom.height (geom.size l) - half_gap_y - half_gap_y)).
Proof.
  cbn zeta. unfold in_int.
  pose proof (half_gap_is_ceiling (get_inner_gaps_x (config self))).
  pose proof (half_gap_is_ceiling (get_inner_gaps_y (config self))).
  change (2 ^ 30) with 1073741824. change (2 ^ 31) with 2147483648.
  lia.
Qed.

(** In particular no sum or difference overflows for such a leaf. *)
Lemma get_visible_area_in_range_of_bounds (self : LeafNode) :
  let l := logical_area self in
  0 <= get_inner_gaps_x (config self) <= 2 ^ 30 ->
  0 <= get_inner_gaps_y (config self) <= 2 ^ 30 ->
  - 2 ^ 30 <= geom.left l <= 2 ^ 30 ->
  - 2 ^ 30 <= geom.top l <= 2 ^ 30 ->
  - 2 ^ 30 <= geom.width (geom.size l) <= 2 ^ 30 ->
  - 2 ^ 30 <= geom.height (geom.size l) <= 2 ^ 30 ->
  get_visible_area_in_range self.
Proof.
  cbn zeta. intros Hgx Hgy Hx Hy Hw Hh.
  destruct (get_visible_area_in_int_range self Hgx Hgy Hx Hy Hw Hh)
    as ((_ & Hxl & Hwl & Hwr) & (_ & Hyu & Hhu & Hhd)).
  cbn zeta in *. unfold geom.left, geom.top in *.
  assert (Hwr' : in_int (geom.width (geom.size (logical_area self))
                         - half_gap (get_inner_gaps_x (config self)))) by exact Hwl.
  unfold get_visible_area_in_range; cbn zeta.
  destruct (get_neighbors self left), (get_neighbors self up); auto.
Qed.

(** C1, as the code has it.  For a leaf on which the int arithmetic of
    get_visible_area() does not overflow, the visible area is the logical
    area with each side that has a neighbor moved inwards by the half gap of
    that side, ceil(gap_x/2) for left and right and ceil(gap_y/2) for up and
    down, and with every other side left where it is.  The width and the
    height lost are the half gaps of the neighbor sides of that axis, and the
    size lost in all is the sum of the half gaps over exactly the neighbor
    sides.  When the gaps are not negative the visible area lies within the
    logical area. *)
Theorem get_visible_area_shrinks_neighbor_sides (self : LeafNode) :
  get_visible_area_in_range self ->
  let v := get_visible_area self in
  let l := logical_area self in
  let n := get_neighbors self in
  let gap_x := get_inner_gaps_x (config self) in
  let gap_y := get_inner_gaps_y (config self) in
  (2 * half_gap gap_x - 2 < gap_x <= 2 * half_gap gap_x /\
   2 * half_gap gap_y - 2 < gap_y <= 2 * half_gap gap_y) /\
  (geom.left v = geom.left l + (if n left then half_gap gap_x else 0) /\
   geom.right v = geom.right l - (if n right then half_gap gap_x else 0) /\
   geom.top v = geom.top l + (if n up then half_gap gap_y else 0) /\
   geom.bottom v = geom.bottom l - (if n down then half_gap gap_y else 0)) /\
  (geom.width (geom.size l) - geom.width (geom.size v)
     = sum_Z (map (side_gap (config self)) (filter n [left; right])) /\
   geom.height (geom.size l) - geom.height (geom.size v)
     = sum_Z (map (side_gap (config self)) (filter n [up; down])) /\
   (geom.width (geom.size l) - geom.width (geom.size v))
   + (geom.height (geom.size l) - geom.height (geom.size v))
     = sum_Z (map (side_gap (config self)) (neighbor_sides self))) /\
  (0 <= gap_x -> 0 <= gap_y ->
   geom.within v l /\ forall p, geom.covers v p -> geom.covers l p).
Proof.
  intros Hrange v l n gap_x gap_y.
  split; [ split; apply half_gap_is_ceiling | ].
  split; [ exact (get_visible_area_edges self Hrange) | ].
  split.
  - pose proof (get_visible_area_width self Hrange) as Hw.
    pose proof (get_visible_area_height self Hrange) as Hh.
    rewrite neighbor_sides_by_axis.
    subst v l n. rewrite Hw, Hh. auto.
  - intros Hx Hy.
    assert (Hin : geom.within v l) by (apply get_visible_area_within; assumption).
    split; [ exact Hin | exact (within_covers v l Hin) ].
Qed.

(** At gaps of 7 and 4 a leaf with neighbors to the left and below loses 4
    pixels of width and 2 of height, and stays within its logical area. *)
Lemma get_visible_area_shrinks_neighbor_sides_at_7_4 :
  let self := new_leaf 1%nat (rect 100 50 400 300) 7 4
                (fun d => match d with left | down => true | _ => false end) in
  get_visible_area_in_range self /\
  get_visible_area self = rect 104 50 396 298 /\
  geom.within (get_visible_area self) (logical_area self).
Proof.
  assert (Hrange : get_visible_area_in_range
                     (new_leaf 1%nat (rect 100 50 400 300) 7 4
                        (fun d => match d with left | down => true | _ => false end))).
  { apply get_visible_area_in_range_of_bounds; cbn; lia. }
  split; [ exact Hrange | ].
  split; [ reflexivity | ].
  apply (get_visible_area_shrinks_neighbor_sides
           (new_leaf 1%nat (rect 100 50 400 300) 7 4
              (fun d => match d with left | down => true | _ => false end))
           Hrange);
    simpl; lia.
Defined.

(** C1, where the claim fails.  With gaps of -3 and -5, which the int
    configuration can hold, a leaf of 100x200 at (10,20) with neighbors on
    all sides is visible as 102x204 at (9,18): nothing overflows, and the
    visible area is larger than the logical one.  With a gap of 10, a leaf
    at x = 2147483647 with a neighbor on its left has its x wrapped around
    to -2147483644: the left side is not the logical one moved by 5, and the
    visible area is not within the logical one. *)
Lemma get_visible_area_outside_logical_area :
  (let self := new_leaf 1%nat (rect 10 20 100 200) (-3) (-5) (fun _ => true) in
   get_visible_area_in_range self /\
   get_visible_area self = rect 9 18 102 204 /\
   ~ geom.within (get_visible_area self) (logical_area self)) /\
  (let self := new_leaf 1%nat (rect 2147483647 0 100 100) 10 10 (only left) in
   neighbor_sides self = [left] /\
   get_visible_area self = rect (-2147483644) 0 95 100 /\
   geom.left (get_visible_area self) <> geom.left (logical_area self) + half_gap 10 /\
   ~ geom.within (get_visible_area self) (logical_area self)).
Proof.
  split; cbn zeta.
  - split; [ | split; [ reflexivity | ] ].
    + unfold get_visible_area_in_range, in_int; cbn. repeat split; lia.
    + unfold geom.within, geom.right, geom.bottom, geom.left, geom.top; cbn. lia.
  - split; [ reflexivity | split; [ reflexivity | split ] ].
    + cbn. lia.
    + unfold geom.within, geom.right, geom.bottom, geom.left, geom.top; cbn. lia.
Qed.

(** The visible area is computed from the committed logical area: a pending
    area does not move it. *)
Lemma get_visible_area_ignores_pending (self : LeafNode) (r : geom.Rectangle) :
  get_visible_area (set_logical_area self r) = get_visible_area self.
Proof. reflexivity. Qed.

(** C5.  With gaps of 10 and 10, the left of two leaves of 960x1080, at
    (0,0) with a neighbor on its right only, is visible as 955x1080 at (0,0),
    and the right one, at (960,0) with a neighbor on its left only, as
    955x1080 at (965,0). *)
Theorem two_leaves_visible_areas :
  logical_area left_leaf = rect 0 0 960 1080 /\
  logical_area right_leaf = rect 960 0 960 1080 /\
  neighbor_sides left_leaf = [right] /\
  neighbor_sides right_leaf = [left] /\
  get_visible_area left_leaf = rect 0 0 955 1080 /\
  get_visible_area right_leaf = rect 965 0 955 1080.
Proof. repeat split; reflexivity. Qed.

(** ** Staging and committing *)

Section LeafNodeProperties.

Context {Host : Type} `{TilingInterface Host}.

Lemma constrain_invoke (self : LeafNode) (W : World Host) :
  constrain self W = invoke (constrain_call self (node_interface W)) W.
Proof.
  unfold constrain, constrain_call.
  destruct (is_fullscreen (node_interface W) (window self)); reflexivity.
Qed.

(** What a commit leaves in the fields of the leaf. *)
Lemma commit_changes_fields (self : LeafNode) (W : World Host) :
  let self' := fst (commit_changes self W) in
  window self' = window self /\
  logical_area self' = get_logical_area self /\
  next_logical_area self' = None /\
  next_state self' = None /\
  before_shown_state self' = before_shown_state self /\
  config self' = config self /\
  get_neighbors self' = get_neighbors self.
Proof.
  unfold commit_changes, get_logical_area.
  destruct (next_state self) as [s|] eqn:Es;
    destruct (next_logical_area self) as [r|] eqn:Er; cbn; rewrite ?Er; cbn.
  1, 3: match goal with
        | |- context [negb ?b] => destruct b
        end; cbn; auto 10.
  all: rewrite ?Es, ?Er; auto 10.
Qed.

(** The visible area depends on the committed area, the gaps and the
    neighbors only. *)
Lemma get_visible_area_ext (a b : LeafNode) :
  logical_area a = logical_area b ->
  config a = config b ->
  get_neighbors a = get_neighbors b ->
  get_visible_area a = get_visible_area b.
Proof.
  intros Hl Hc Hn. unfold get_visible_area. rewrite Hl, Hc, Hn. reflexivity.
Qed.

(** A commit with nothing pending returns what it was given. *)
Lemma commit_changes_nothing_pending (self : LeafNode) (W : World Host) :
  next_state self = None ->
  next_logical_area self = None ->
  commit_changes self W = (self, W).
Proof.
  intros Hs Ha. unfold commit_changes. rewrite Hs, Ha. reflexivity.
Qed.

(** C3.  get_logical_area() answers the pending area when one is staged and
    the committed area otherwise.  set_logical_area(rect) stages [rect] and
    nothing more: the committed area and every other field stay as they were,
    and so does the visible area; get_logical_area() answers [rect] from then
    on, and the committed area becomes [rect] when commit_changes() runs. *)
Theorem set_logical_area_only_stages
    (self : LeafNode) (target_rect : geom.Rectangle) (W : World Host) :
  (forall r, next_logical_area self = Some r -> get_logical_area self = r) /\
  (next_logical_area self = None -> get_logical_area self = logical_area self) /\
  (let staged := set_logical_area self target_rect in
   next_logical_area staged = Some target_rect /\
   get_logical_area staged = target_rect /\
   logical_area staged = logical_area self /\
   get_visible_area staged = get_visible_area self /\
   window staged = window self /\
   next_state staged = next_state self /\
   before_shown_state staged = before_shown_state self /\
   logical_area (fst (commit_changes staged W)) = target_rect).
Proof.
  split; [ | split ].
  - intros r Hr. unfold get_logical_area. rewrite Hr. reflexivity.
  - intros Hn. unfold get_logical_area. rewrite Hn. reflexivity.
  - cbn zeta. repeat split.
    destruct (commit_changes_fields (set_logical_area self target_rect) W)
      as (_ & Hl & _).
    exact Hl.
Qed.

(** C7.  With no pending window state and no pending logical area,
    commit_changes() does nothing: no call reaches the host, and the leaf,
    committed area and pending fields included, is what it was.  A commit
    leaves nothing pending, so a commit that follows a commit does nothing. *)
Theorem commit_changes_idle (self : LeafNode) (W : World Host) :
  (next_state self = None -> next_logical_area self = None ->
   commit_changes self W = (self, W) /\
   calls (snd (commit_changes self W)) = calls W /\
   node_interface (snd (commit_changes self W)) = node_interface W /\
   logical_area (fst (commit_changes self W)) = logical_area self /\
   next_state (fst (commit_changes self W)) = None /\
   next_logical_area (fst (commit_changes self W)) = None) /\
  (let once := commit_changes self W in
   commit_changes (fst once) (snd once) = once).
Proof.
  split.
  - intros Hs Ha.
    rewrite (commit_changes_nothing_pending self W Hs Ha); cbn.
    repeat split; assumption.
  - cbn zeta.
    destruct (commit_changes_fields self W) as (_ & _ & Ha & Hs & _).
    rewrite (commit_changes_nothing_pending _ _ Hs Ha).
    symmetry; apply surjective_pairing.
Qed.

(** C2.  commit_changes() is two steps in this order, each taken only when
    its pending value is present.  The state step calls change_state with the
    pending state and then constrains.  The area step takes the visible area
    as it was, replaces the committed area by the pending one and, unless the
    host calls the window fullscreen, calls set_rectangle from the former to
    the new visible area and then constrains.  Afterwards neither pending
    field is set. *)
Theorem commit_changes_two_steps (self : LeafNode) (W : World Host) :
  let self' := fst (commit_changes self W) in
  let W' := snd (commit_changes self W) in
  let w := window self in
  let h := node_interface W in
  let state_step :=
    match next_state self with
    | Some s => [call_change_state w s; constrain_call self (change_state h w s)]
    | None => []
    end in
  let h1 := run_calls h state_step in
  let area_step :=
    match next_logical_area self with
    | Some r =>
        if is_fullscreen h1 w then []
        else
          let previous := get_visible_area self in
          [call_set_rectangle w previous (get_visible_area self');
           constrain_call self' (set_rectangle h1 w previous (get_visible_area self'))]
    | None => []
    end in
  calls W' = calls W ++ state_step ++ area_step /\
  node_interface W' = run_calls h (state_step ++ area_step) /\
  next_state self' = None /\
  next_logical_area self' = None /\
  logical_area self' = get_logical_area self.
Proof.
  cbn zeta.
  destruct (commit_changes_fields self W) as (_ & Hl & Ha & Hs & _).
  assert (Hv : forall r, next_logical_area self = Some r ->
            get_visible_area (fst (commit_changes self W))
            = get_visible_area (take_next_logical_area self r)).
  { intros r Er.
    destruct (commit_changes_fields self W) as (_ & Hl' & _ & _ & _ & Hc & Hn).
    apply get_visible_area_ext; try assumption.
    rewrite Hl'. unfold get_logical_area. rewrite Er. reflexivity. }
  split; [ | split; [ | auto ] ].
  all: destruct (next_state self) as [s|] eqn:Es;
    destruct (next_logical_area self) as [r|] eqn:Er;
    rewrite ?(Hv r eq_refl);
    unfold commit_changes, run_calls, constrain, constrain_call, invoke;
    rewrite Es; cbn; rewrite ?Er; cbn.
  all: change (get_visible_area (set_next_state self None))
         with (get_visible_area self);
    try change (get_visible_area (take_next_logical_area (set_next_state self None) r))
         with (get_visible_area (take_next_logical_area self r)).
  all: repeat innermost_is_fullscreen.
  all: rewrite <- ?app_assoc, ?app_nil_r; reflexivity.
Qed.

Lemma MirWindowState_eqb_eq (a b : MirWindowState) :
  MirWindowState_eqb a b = true <-> a = b.
Proof. destruct a, b; cbn; split; congruence. Qed.

(** C6, as the code has it.  LeafNode::is_fullscreen() answers true exactly
    when the state the host reports for the window is
    mir_window_state_maximized, the state toggle_fullscreen() stages to make a
    leaf fullscreen. *)
Theorem LeafNode_is_fullscreen_iff_maximized (self : LeafNode) (W : World Host) :
  LeafNode_is_fullscreen self W = true
  <-> get_state (node_interface W) (window self) = mir_window_state_maximized.
Proof. unfold LeafNode_is_fullscreen. apply MirWindowState_eqb_eq. Qed.

(** A commit whose leaf has no pending window state makes no change_state
    call. *)
Lemma commit_changes_no_change_state (self : LeafNode) (W : World Host) :
  next_state self = None ->
  exists area_step,
    calls (snd (commit_changes self W)) = calls W ++ area_step /\
    forall c, In c area_step -> is_change_state c = false.
Proof.
  intros Hs. unfold commit_changes. rewrite Hs.
  destruct (next_logical_area self) as [r|]; cbn.
  - destruct (is_fullscreen (node_interface W) (window self)); cbn.
    + exists []. split; [ symmetry; apply app_nil_r | intros c [] ].
    + rewrite constrain_invoke; cbn. rewrite <- app_assoc.
      eexists. split; [ reflexivity | ].
      intros c [Hc | [Hc | []]]; subst c; [ reflexivity | ].
      unfold constrain_call. destruct (is_fullscreen _ _); reflexivity.
  - exists []. split; [ symmetry; apply app_nil_r | intros c [] ].
Qed.

(** C4, as the code has it.  hide() keeps the state the host reports for the
    window as the snapshot and stages the hidden state.  A show() that follows,
    with or without a commit in between, stages exactly that snapshot and
    clears it.  A second hide() before the show() replaces the snapshot by the
    state the host reports then, which is the hidden state once the first
    hide has been committed, so the show() stages the hidden state.  A show()
    on a leaf that holds no snapshot stages no state: it clears the pending
    window state, and the commit that follows makes no change_state call. *)
Theorem hide_show_snapshot (self : LeafNode) (W W2 : World Host) :
  let current := get_state (node_interface W) (window self) in
  let hidden := hide self W in
  (before_shown_state hidden = Some current /\
   next_state hidden = Some mir_window_state_hidden) /\
  (next_state (show hidden) = Some current /\
   before_shown_state (show hidden) = None) /\
  (next_state (show (fst (commit_changes hidden W2))) = Some current /\
   before_shown_state (show (fst (commit_changes hidden W2))) = None) /\
  (before_shown_state (hide hidden W2)
     = Some (get_state (node_interface W2) (window self)) /\
   (get_state (node_interface W2) (window self) = mir_window_state_hidden ->
    next_state (show (hide hidden W2)) = Some mir_window_state_hidden)) /\
  (before_shown_state self = None ->
   next_state (show self) = None /\
   before_shown_state (show self) = None /\
   exists area_step,
     calls (snd (commit_changes (show self) W)) = calls W ++ area_step /\
     forall c, In c area_step -> is_change_state c = false).
Proof.
  cbn zeta.
  split; [ split; reflexivity | ].
  split; [ split; reflexivity | ].
  split.
  { destruct (commit_changes_fields (hide self W) W2)
      as (_ & _ & _ & _ & Hb & _).
    unfold show at 1; cbn [next_state]. rewrite Hb. split; reflexivity. }
  split.
  { split; [ reflexivity | ]. intros Hh. cbn. rewrite Hh. reflexivity. }
  intros Hb. cbn. rewrite Hb.
  split; [ reflexivity | split; [ reflexivity | ] ].
  apply commit_changes_no_change_state. cbn. exact Hb.
Qed.

End LeafNodeProperties.

(** A leaf with a pending area reads it back, and staging another rectangle
    leaves the committed 960x1080 area alone until the commit. *)
Lemma set_logical_area_only_stages_witness :
  let self := set_logical_area left_leaf (rect 0 0 640 1080) in
  let W := sample_world in
  get_logical_area self = rect 0 0 640 1080 /\
  logical_area (set_logical_area self (rect 0 0 480 1080)) = rect 0 0 960 1080 /\
  logical_area (fst (commit_changes (set_logical_area self (rect 0 0 480 1080)) W))
    = rect 0 0 480 1080.
Proof.
  pose proof (set_logical_area_only_stages
                (set_logical_area left_leaf (rect 0 0 640 1080))
                (rect 0 0 480 1080)
                sample_world) as (Hp & _ & Hs).
  split; [ apply Hp; reflexivity | ].
  split; [ reflexivity | apply Hs ].
Defined.


(** ** Commits on the sample host *)

(** A pending hidden state and a pending area: the state goes first, the
    window is clipped to the visible area it still has, then it is moved from
    955x1080 to 635x1080 and clipped again. *)
Example commit_changes_state_then_area :
  calls (snd (commit_changes (left_leaf_pending mir_window_state_hidden) sample_world))
  = [call_change_state 1%nat mir_window_state_hidden;
     call_clip 1%nat (rect 0 0 955 1080);
     call_set_rectangle 1%nat (rect 0 0 955 1080) (rect 0 0 635 1080);
     call_clip 1%nat (rect 0 0 635 1080)].
Proof. reflexivity. Qed.

(** When the pending state makes the window fullscreen the clip is removed
    and the new area, although committed, is not sent to the host. *)
Example commit_changes_fullscreen_skips_set_rectangle :
  let done := commit_changes (left_leaf_pending mir_window_state_maximized) sample_world in
  calls (snd done)
  = [call_change_state 1%nat mir_window_state_maximized; call_noclip 1%nat] /\
  logical_area (fst done) = rect 0 0 640 1080 /\
  next_logical_area (fst done) = None /\
  next_state (fst done) = None.
Proof. repeat split; reflexivity. Qed.

(** A commit with nothing pending on the sample host, and a second commit
    after a first one. *)
Lemma commit_changes_idle_witness :
  commit_changes left_leaf sample_world = (left_leaf, sample_world) /\
  (let once := commit_changes (left_leaf_pending mir_window_state_hidden) sample_world in
   commit_changes (fst once) (snd once) = once).
Proof.
  pose proof (commit_changes_idle left_leaf sample_world) as (Hidle & _).
  pose proof (commit_changes_idle (left_leaf_pending mir_window_state_hidden)
                sample_world) as (_ & Htwice).
  split; [ apply Hidle; reflexivity | exact Htwice ].
Defined.

(** ** Hiding and showing on the sample host *)

(** C4, where the claim fails.  The left leaf has never been hidden.  Its
    show() does not stage the state the host reports, restored: it stages
    nothing, the commit that follows makes no call at all, and a state staged
    before the show(), here by toggle_fullscreen(), is dropped.  A second
    hide() with no commit since the first keeps the restored state as the
    snapshot, not the hidden one. *)
Lemma show_never_hidden_stages_nothing :
  before_shown_state left_leaf = None /\
  get_state (node_interface sample_world) (window left_leaf)
    = mir_window_state_restored /\
  next_state (show left_leaf) <> Some mir_window_state_restored /\
  next_state (show left_leaf) = None /\
  calls (snd (commit_changes (show left_leaf) sample_world)) = [] /\
  next_state (toggle_fullscreen left_leaf sample_world)
    = Some mir_window_state_maximized /\
  next_state (show (toggle_fullscreen left_leaf sample_world)) = None /\
  before_shown_state (hide (hide left_leaf sample_world) sample_world)
    = Some mir_window_state_restored.
Proof. repeat split; try reflexivity. cbn. discriminate. Qed.

(** hide, commit, hide, show on the sample host: the second hide finds the
    window hidden, and the show stages the hidden state; the leaf that was
    never hidden stages nothing. *)
Lemma hide_show_snapshot_witness :
  let W2 := snd (commit_changes (hide left_leaf sample_world) sample_world) in
  get_state (node_interface W2) (window left_leaf) = mir_window_state_hidden /\
  next_state (show (hide left_leaf sample_world)) = Some mir_window_state_restored /\
  next_state (show (hide (hide left_leaf sample_world) W2))
    = Some mir_window_state_hidden /\
  next_state (show left_leaf) = None.
Proof.
  pose proof (hide_show_snapshot left_leaf sample_world
                (snd (commit_changes (hide left_leaf sample_world) sample_world)))
    as (_ & (Hshow & _) & _ & (_ & Hagain) & Hnever).
  split; [ reflexivity | ].
  split; [ exact Hshow | ].
  split; [ apply Hagain; reflexivity | ].
  apply Hnever; reflexivity.
Defined.

(** ** Fullscreen on the sample host *)

(** C6, where the claim fails.  For a window whose state is
    mir_window_state_fullscreen LeafNode::is_fullscreen() answers false, and
    for one whose state is mir_window_state_maximized it answers true. *)
Lemma LeafNode_is_fullscreen_not_fullscreen_state :
  get_state (node_interface fullscreen_world) (window left_leaf)
    = mir_window_state_fullscreen /\
  LeafNode_is_fullscreen left_leaf fullscreen_world = false /\
  ~ (LeafNode_is_fullscreen left_leaf fullscreen_world = true
     <-> get_state (node_interface fullscreen_world) (window left_leaf)
         = mir_window_state_fullscreen) /\
  (let W := snd (commit_changes (toggle_fullscreen left_leaf sample_world) sample_world) in
   get_state (node_interface W) (window left_leaf) = mir_window_state_maximized /\
   LeafNode_is_fullscreen left_leaf W = true).
Proof.
  split; [ reflexivity | ].
  split; [ reflexivity | ].
  split; [ | split; reflexivity ].
  intros [_ Hback].
  specialize (Hback eq_refl). discriminate Hback.
Qed.

(** The amended statement on both hosts. *)
Lemma LeafNode_is_fullscreen_iff_maximized_witness :
  LeafNode_is_fullscreen left_leaf fullscreen_world <> true /\
  LeafNode_is_fullscreen left_leaf
    (snd (commit_changes (toggle_fullscreen left_leaf sample_world) sample_world))
  = true.
Proof.
  split.
  - intros Ht.
    apply (LeafNode_is_fullscreen_iff_maximized left_leaf fullscreen_world) in Ht.
    discriminate Ht.
  - apply (LeafNode_is_fullscreen_iff_maximized left_leaf
             (snd (commit_changes (toggle_fullscreen left_leaf sample_world)
                     sample_world))).
    reflexivity.
Defined.

(** ** The active workspace *)

Lemma get_active_workspace_from_found (infos : list WorkspaceContent) (active : Z)
    (info : WorkspaceContent) :
  get_active_workspace_from infos active = returns info ->
  exists before after,
    infos = before ++ info :: after /\
    get_workspace info = active /\
    forall other, In other before -> get_workspace other <> active.
Proof.
  induction infos as [|first rest IH]; cbn; [ discriminate | ].
  destruct (get_workspace first =? active) eqn:Ekey.
  - intros Hret. injection Hret as <-.
    exists [], rest. repeat split; [ now apply Z.eqb_eq | intros other [] ].
  - intros Hret. destruct (IH Hret) as (before & after & -> & Hkey & Hbefore).
    exists (first :: before), after. repeat split; [ exact Hkey | ].
    intros other [<- | Hin]; [ now apply Z.eqb_neq | now apply Hbefore ].
Qed.

Lemma get_active_workspace_from_missing (infos : list WorkspaceContent) (active : Z) :
  (forall info, In info infos -> get_workspace info <> active) ->
  get_active_workspace_from infos active = throws get_active_workspace_error.
Proof.
  induction infos as [|first rest IH]; cbn; intros Hnone; [ reflexivity | ].
  destruct (Z.eqb_spec (get_workspace first) active) as [Heq | _].
  - exfalso. apply (Hnone first); auto.
  - apply IH. intros info Hin. apply Hnone. auto.
Qed.

Lemma get_active_workspace_from_present (infos : list WorkspaceContent) (active : Z) :
  (exists info, In info infos /\ get_workspace info = active) ->
  exists info, get_active_workspace_from infos active = returns info.
Proof.
  induction infos as [|first rest IH]; cbn; intros (info & Hin & Hkey);
    [ contradiction | ].
  destruct (Z.eqb_spec (get_workspace first) active) as [_ | Hne].
  - exists first. reflexivity.
  - destruct Hin as [-> | Hin]; [ contradiction | ].
    apply IH. exists info. auto.
Qed.

(** C8.  When no workspace of the output has the active key,
    get_active_workspace() throws its runtime_error; it answers neither a
    null nor a stand-in workspace.  When some workspace has the key, it
    returns the first such workspace of the list.  It never returns anything
    but a workspace of the list that has the active key. *)
Theorem get_active_workspace_throws_or_finds (self : OutputContent) :
  ((forall info, In info (workspaces self) ->
      get_workspace info <> active_workspace self) ->
   get_active_workspace self = throws get_active_workspace_error) /\
  ((exists info, In info (workspaces self) /\
      get_workspace info = active_workspace self) ->
   exists before info after,
     workspaces self = before ++ info :: after /\
     get_workspace info = active_workspace self /\
     (forall other, In other before -> get_workspace other <> active_workspace self) /\
     get_active_workspace self = returns info) /\
  (forall info, get_active_workspace self = returns info ->
     In info (workspaces self) /\ get_workspace info = active_workspace self).
Proof.
  unfold get_active_workspace.
  split; [ apply get_active_workspace_from_missing | split ].
  - intros Hex.
    destruct (get_active_workspace_from_present _ _ Hex) as (info & Hret).
    destruct (get_active_workspace_from_found _ _ _ Hret)
      as (before & after & Hsplit & Hkey & Hbefore).
    exists before, info, after. auto.
  - intros info Hret.
    destruct (get_active_workspace_from_found _ _ _ Hret)
      as (before & after & Hsplit & Hkey & _).
    split; [ | exact Hkey ].
    rewrite Hsplit. apply in_or_app. right. left. reflexivity.
Qed.

(** On the sample output, key 2 finds the second workspace and key 7 throws. *)
Lemma get_active_workspace_throws_or_finds_witness :
  get_active_workspace (sample_output 7 0%nat) = throws get_active_workspace_error /\
  exists before info after,
    workspaces (sample_output 2 0%nat) = before ++ info :: after /\
    get_workspace info = 2 /\
    (forall other, In other before -> get_workspace other <> 2) /\
    get_active_workspace (sample_output 2 0%nat) = returns info.
Proof.
  split.
  - apply (get_active_workspace_throws_or_finds (sample_output 7 0%nat)).
    cbn. intros info [<- | [<- | [<- | []]]]; cbn; lia.
  - apply (get_active_workspace_throws_or_finds (sample_output 2 0%nat)).
    exists (sample_workspace 2 false [10%nat; 11%nat]).
    cbn. auto.
Defined.

(** ** Selecting a window from a point *)

(** The last element of a list that passes a test. *)
Lemma last_passing {A : Type} (p : A -> bool) (l : list A) :
  (exists a, In a l /\ p a = true) ->
  exists before a after,
    l = before ++ a :: after /\ p a = true /\
    forall b, In b after -> p b = false.
Proof.
  induction l as [|first rest IH]; intros (a & Hin & Hp); [ contradiction | ].
  destruct (existsb p rest) eqn:Erest.
  - apply existsb_exists in Erest.
    destruct (IH Erest) as (before & a' & after & -> & Hp' & Hafter).
    exists (first :: before), a', after. auto.
  - destruct Hin as [-> | Hin].
    + exists [], a, rest. repeat split; [ exact Hp | ].
      intros b Hb. destruct (p b) eqn:Eb; [ | reflexivity ].
      rewrite <- Erest. symmetry. apply existsb_exists. eauto.
    + assert (existsb p rest = true) by (apply existsb_exists; eauto).
      congruence.
Qed.

Section SelectWindowFromPointProperties.

Variable Window_top_left : Window -> geom.Point.
Variable Window_size : Window -> geom.Size.
Variable Rectangle_contains : geom.Rectangle -> geom.Point -> bool.

#[local] Abbreviation at_point :=
  (floating_window_at Window_top_left Window_size Rectangle_contains).
#[local] Abbreviation loop :=
  (floating_loop Window_top_left Window_size Rectangle_contains).
#[local] Abbreviation active_at :=
  (floating_active_at Window_top_left Window_size Rectangle_contains).

Lemma floating_loop_return (active : Window) (x y : Z) (rest : list Window) :
  existsb (active_at active x y) rest = true ->
  forall i floating_index, loop active x y rest i floating_index = loop_return.
Proof.
  induction rest as [|w rest IH]; cbn; [ discriminate | ].
  unfold floating_active_at at 1. intros Hex i floating_index.
  destruct ((w =? active)%nat && at_point w x y); [ reflexivity | ].
  cbn in Hex. destruct (at_point w x y); apply IH; exact Hex.
Qed.

Lemma floating_loop_none (active : Window) (x y : Z) (rest : list Window) :
  (forall w, In w rest -> at_point w x y = false) ->
  forall i floating_index,
    loop active x y rest i floating_index = loop_end floating_index.
Proof.
  induction rest as [|w rest IH]; cbn; intros Hnone i floating_index;
    [ reflexivity | ].
  rewrite (Hnone w) by auto. rewrite andb_false_r.
  apply IH. auto.
Qed.

Lemma floating_loop_last (active : Window) (x y : Z)
    (before : list Window) (f : Window) (after : list Window) :
  existsb (active_at active x y) (before ++ f :: after) = false ->
  at_point f x y = true ->
  (forall w, In w after -> at_point w x y = false) ->
  forall i floating_index,
    loop active x y (before ++ f :: after) i floating_index
    = loop_end (i + Z.of_nat (List.length before)).
Proof.
  induction before as [|w before IH]; intros Hex Hf Hafter i floating_index.
  - cbn in *. apply orb_false_elim in Hex as [Hhit _].
    unfold floating_active_at in Hhit. rewrite Hhit, Hf.
    rewrite floating_loop_none by exact Hafter.
    f_equal. lia.
  - cbn [app existsb] in Hex. apply orb_false_elim in Hex as [Hhit Hex].
    cbn [app floating_loop List.length]. unfold floating_active_at in Hhit. rewrite Hhit.
    destruct (at_point w x y); rewrite (IH Hex Hf Hafter); f_equal; lia.
Qed.

(** When the loop runs to its end, [floating_index] is the value it started
    with or the index of a window the loop went through. *)
Lemma floating_loop_index (active : Window) (x y : Z) (rest : list Window) :
  forall i floating_index last,
    loop active x y rest i floating_index = loop_end last ->
    last = floating_index \/ i <= last < i + Z.of_nat (List.length rest).
Proof.
  induction rest as [|w rest IH]; cbn [floating_loop List.length];
    intros i floating_index last Hend.
  - injection Hend as <-. left. reflexivity.
  - destruct ((w =? active)%nat && at_point w x y); [ discriminate | ].
    destruct (at_point w x y); apply IH in Hend; lia.
Qed.

(** The index the loop leaves, when it is not -1, is an index of the list:
    [floating[floating_index]] is a floating window. *)
Lemma floating_loop_index_valid (active : Window) (x y : Z) (floating : list Window)
    (last : Z) :
  loop active x y floating 0 (-1) = loop_end last ->
  last >= 0 ->
  exists w, nth_error floating (Z.to_nat last) = Some w /\ In w floating.
Proof.
  intros Hend Hlast.
  apply floating_loop_index in Hend.
  destruct (nth_error floating (Z.to_nat last)) as [w|] eqn:Enth.
  - exists w. split; [ reflexivity | ]. eapply nth_error_In; eassumption.
  - apply nth_error_None in Enth. lia.
Qed.

#[local] Abbreviation select_in :=
  (select_window_from_point_in Window_top_left Window_size Rectangle_contains).

Lemma nth_error_middle {A : Type} (before : list A) (a : A) (after : list A) :
  nth_error (before ++ a :: after) (Z.to_nat (0 + Z.of_nat (List.length before)))
  = Some a.
Proof.
  rewrite Z.add_0_l, Nat2Z.id.
  rewrite nth_error_app2 by lia.
  rewrite Nat.sub_diag. reflexivity.
Qed.

(** With no fullscreen window and no hit on the active window, the last
    floating window under the point is selected. *)
Lemma select_in_last_floating (self : OutputContent) (workspace : WorkspaceContent)
    (x y : Z) (before : list Window) (f : Window) (after : list Window) :
  has_fullscreen_window (get_tree workspace) = false ->
  existsb (active_at (active_window self) x y) (get_floating_windows workspace) = false ->
  get_floating_windows workspace = before ++ f :: after ->
  at_point f x y = true ->
  (forall w, In w after -> at_point w x y = false) ->
  select_in self workspace x y = [tools_select_active_window f].
Proof.
  intros Hfull Hex Hsplit Hf Hafter.
  unfold select_window_from_point_in. rewrite Hfull, Hsplit.
  rewrite Hsplit in Hex.
  rewrite (floating_loop_last _ _ _ _ _ _ Hex Hf Hafter).
  replace (0 + Z.of_nat (List.length before) >=? 0) with true
    by (symmetry; apply Z.geb_le; lia).
  rewrite nth_error_middle. reflexivity.
Qed.

Lemma select_in_active_floating (self : OutputContent) (workspace : WorkspaceContent)
    (x y : Z) :
  has_fullscreen_window (get_tree workspace) = false ->
  existsb (active_at (active_window self) x y) (get_floating_windows workspace) = true ->
  select_in self workspace x y = [].
Proof.
  intros Hfull Hex.
  unfold select_window_from_point_in. rewrite Hfull.
  rewrite (floating_loop_return _ _ _ _ Hex). reflexivity.
Qed.

(** C9.  With the active workspace found, select_window_from_point(x, y)
    selects nothing when the workspace's tree has a fullscreen window.
    Otherwise: when the point is in the active floating window nothing is
    selected; when the point is in some floating window the tree is not asked
    and at most a floating window under the point is selected, the last of
    the list when the active window is not one of them; and only when no
    floating window is under the point is the tree asked, its leaf being
    selected unless its window is the active one. *)
Theorem select_window_from_point_priorities
    (self : OutputContent) (workspace : WorkspaceContent) (x y : Z) :
  get_active_workspace self = returns workspace ->
  let tree := get_tree workspace in
  let floating := get_floating_windows workspace in
  let active := active_window self in
  let result :=
    OutputContent_select_window_from_point
      Window_top_left Window_size Rectangle_contains self x y in
  (has_fullscreen_window tree = true -> result = returns []) /\
  (has_fullscreen_window tree = false ->
   (In active floating -> at_point active x y = true -> result = returns []) /\
   ((exists w, In w floating /\ at_point w x y = true) ->
    exists effects,
      result = returns effects /\
      ~ In (tree_select_window_from_point x y) effects /\
      (effects = [] \/
       exists f, effects = [tools_select_active_window f] /\
                 In f floating /\ at_point f x y = true)) /\
   ((forall w, In w floating -> at_point w x y = true -> w <> active) ->
    forall before f after,
      floating = before ++ f :: after ->
      at_point f x y = true ->
      (forall w, In w after -> at_point w x y = false) ->
      result = returns [tools_select_active_window f]) /\
   ((forall w, In w floating -> at_point w x y = false) ->
    result = returns
      (tree_select_window_from_point x y ::
       match select_window_from_point tree x y with
       | Some node =>
           if negb (window node =? active)%nat
           then [tools_select_active_window (window node)]
           else []
       | None => []
       end))).
Proof.
  intros Hws tree floating active result.
  subst result. unfold OutputContent_select_window_from_point. rewrite Hws.
  split.
  { intros Hfull. unfold select_window_from_point_in.
    fold tree. rewrite Hfull. reflexivity. }
  intros Hfull. split; [ | split; [ | split ] ].
  - intros Hin Hat. f_equal.
    apply select_in_active_floating; [ exact Hfull | ].
    apply existsb_exists. exists active. split; [ exact Hin | ].
    unfold floating_active_at. fold active.
    rewrite Nat.eqb_refl, Hat. reflexivity.
  - intros Hex.
    destruct (existsb (active_at active x y) floating) eqn:Ehit.
    + exists []. split; [ f_equal; now apply select_in_active_floating | ].
      split; [ intros [] | left; reflexivity ].
    + destruct (last_passing (fun w => at_point w x y) floating Hex)
        as (before & f & after & Hsplit & Hf & Hafter).
      exists [tools_select_active_window f].
      split; [ f_equal; now apply (select_in_last_floating _ _ _ _ before f after) | ].
      split; [ intros [Habs | []]; discriminate Habs | ].
      right. exists f. repeat split; [ | exact Hf ].
      fold floating. rewrite Hsplit. apply in_or_app. right. left. reflexivity.
  - intros Hother before f after Hsplit Hf Hafter. f_equal.
    apply (select_in_last_floating _ _ _ _ before f after); try assumption.
    destruct (existsb (active_at active x y) floating) eqn:Ehit; [ | exact Ehit ].
    apply existsb_exists in Ehit as (w & Hin & Hhit).
    unfold floating_active_at in Hhit.
    apply andb_true_iff in Hhit as [Heq Hat].
    apply Nat.eqb_eq in Heq. exfalso. exact (Hother w Hin Hat Heq).
  - intros Hnone. f_equal.
    unfold select_window_from_point_in. fold tree floating active.
    rewrite Hfull.
    rewrite (floating_loop_none _ _ _ _ Hnone). reflexivity.
Qed.

End SelectWindowFromPointProperties.

(** Selections on the sample output.  Workspace 2 is active: at (200,200),
    under both floating windows, the later one is selected, unless it is the
    active window already; at (120,120) only window 10 is there; at
    (500,500) no floating window is, and the tree's leaf is selected.  On
    workspace 3, which has a fullscreen window, nothing is selected.  With an
    unknown active workspace the call throws. *)
Example select_window_from_point_samples :
  sample_select_window_from_point (sample_output 2 0%nat) 200 200
    = returns [tools_select_active_window 11%nat] /\
  sample_select_window_from_point (sample_output 2 11%nat) 200 200 = returns [] /\
  sample_select_window_from_point (sample_output 2 10%nat) 200 200 = returns [] /\
  sample_select_window_from_point (sample_output 2 11%nat) 120 120
    = returns [tools_select_active_window 10%nat] /\
  sample_select_window_from_point (sample_output 2 10%nat) 500 500
    = returns [tree_select_window_from_point 500 500; tools_select_active_window 1%nat] /\
  sample_select_window_from_point (sample_output 2 1%nat) 500 500
    = returns [tree_select_window_from_point 500 500] /\
  sample_select_window_from_point (sample_output 3 0%nat) 200 200 = returns [] /\
  sample_select_window_from_point (sample_output 7 0%nat) 200 200
    = throws get_active_workspace_error.
Proof. repeat split; reflexivity. Qed.

Lemma select_window_from_point_priorities_witness :
  sample_select_window_from_point (sample_output 3 0%nat) 200 200 = returns [] /\
  sample_select_window_from_point (sample_output 2 11%nat) 200 200 = returns [] /\
  sample_select_window_from_point (sample_output 2 0%nat) 200 200
    = returns [tools_select_active_window 11%nat] /\
  sample_select_window_from_point (sample_output 2 10%nat) 500 500
    = returns [tree_select_window_from_point 500 500; tools_select_active_window 1%nat].
Proof.
  pose proof (select_window_from_point_priorities
                sample_top_left sample_size Rectangle_contains_point
                (sample_output 3 0%nat) (sample_workspace 3 true [10%nat; 11%nat])
                200 200 eq_refl) as (Hfull & _).
  pose proof (select_window_from_point_priorities
                sample_top_left sample_size Rectangle_contains_point
                (sample_output 2 11%nat) (sample_workspace 2 false [10%nat; 11%nat])
                200 200 eq_refl) as (_ & Hactive).
  pose proof (select_window_from_point_priorities
                sample_top_left sample_size Rectangle_contains_point
                (sample_output 2 0%nat) (sample_workspace 2 false [10%nat; 11%nat])
                200 200 eq_refl) as (_ & Hlast).
  pose proof (select_window_from_point_priorities
                sample_top_left sample_size Rectangle_contains_point
                (sample_output 2 10%nat) (sample_workspace 2 false [10%nat; 11%nat])
                500 500 eq_refl) as (_ & Htree).
  split; [ apply Hfull; reflexivity | ].
  split.
  { destruct (Hactive eq_refl) as (Ha & _).
    apply Ha; [ cbn; auto | reflexivity ]. }
  split.
  { destruct (Hlast eq_refl) as (_ & _ & Hl & _).
    apply (Hl ltac:(cbn; intros w [<- | [<- | []]] _; discriminate)
              [10%nat] 11%nat []); [ reflexivity | reflexivity | intros w [] ]. }
  destruct (Htree eq_refl) as (_ & _ & _ & Ht).
  apply Ht. cbn. intros w [<- | [<- | []]]; reflexivity.
Defined.

(** ** Confirming a placement *)

(** C10.  For a tiled window with its tiling node,
    confirm_placement_on_display returns [new_placement] itself, whatever
    rectangle the tree produces, and a tiled window never gets any other
    answer; the sample tree produces a different rectangle and it is lost.
    A rectangle other than [new_placement] is returned for floating windows
    only, where the answer is the floating window manager's; the sample
    manager's answer does differ. *)
Theorem confirm_placement_on_display_tiled_unchanged :
  (forall self metadata new_state new_placement node,
     type metadata = tiled ->
     tiling_node metadata = Some node ->
     confirm_placement_on_display self metadata new_state new_placement
     = Some new_placement) /\
  (forall self metadata new_state new_placement r,
     type metadata = tiled ->
     confirm_placement_on_display self metadata new_state new_placement = Some r ->
     r = new_placement) /\
  (exists self metadata new_state new_placement node,
     type metadata = tiled /\
     get_tiling_node metadata = Some node /\
     tree_confirm_placement_on_display (tree node) (get_window metadata)
       new_state new_placement <> new_placement /\
     confirm_placement_on_display self metadata new_state new_placement
     = Some new_placement) /\
  (forall self metadata new_state new_placement r,
     confirm_placement_on_display self metadata new_state new_placement = Some r ->
     r <> new_placement ->
     type metadata = floating) /\
  (forall self metadata new_state new_placement,
     type metadata = floating ->
     confirm_placement_on_display self metadata new_state new_placement
     = Some (floating_confirm_placement_on_display (floating_window_manager self)
               (get_window metadata) new_state new_placement)) /\
  (exists self metadata new_state new_placement r,
     type metadata = floating /\
     confirm_placement_on_display self metadata new_state new_placement = Some r /\
     r <> new_placement).
Proof.
  split; [ | split; [ | split; [ | split; [ | split ] ] ] ].
  - intros self metadata new_state new_placement node Htype Hnode.
    unfold confirm_placement_on_display, get_tiling_node.
    rewrite Htype, Hnode. reflexivity.
  - intros self metadata new_state new_placement r Htype.
    unfold confirm_placement_on_display, get_tiling_node. rewrite Htype.
    destruct (tiling_node metadata); intros Hret; [ | discriminate ].
    injection Hret as <-. reflexivity.
  - exists (sample_output 2 1%nat), tiled_metadata, mir_window_state_restored,
      (rect 0 0 960 1080), tiled_left_leaf.
    repeat split. cbn. discriminate.
  - intros self metadata new_state new_placement r.
    unfold confirm_placement_on_display, get_tiling_node.
    destruct (type metadata); [ | reflexivity | ].
    + destruct (tiling_node metadata); intros Hret Hne; [ | discriminate ].
      injection Hret as <-. contradiction.
    + intros Hret Hne. injection Hret as <-. contradiction.
  - intros self metadata new_state new_placement Htype.
    unfold confirm_placement_on_display. rewrite Htype. reflexivity.
  - exists (sample_output 2 10%nat), floating_metadata, mir_window_state_restored,
      (rect 100 100 200 200), (rect 120 120 200 200).
    repeat split. discriminate.
Qed.

(** The sample tiled window keeps the proposed 960x1080 although its tree
    produces 955x1080; the sample floating window is moved. *)
Lemma confirm_placement_on_display_tiled_unchanged_witness :
  tree_confirm_placement_on_display (tree tiled_left_leaf) 1%nat
    mir_window_state_restored (rect 0 0 960 1080) = rect 0 0 955 1080 /\
  confirm_placement_on_display (sample_output 2 1%nat) tiled_metadata
    mir_window_state_restored (rect 0 0 960 1080) = Some (rect 0 0 960 1080) /\
  confirm_placement_on_display (sample_output 2 10%nat) floating_metadata
    mir_window_state_restored (rect 100 100 200 200) = Some (rect 120 120 200 200).
Proof.
  destruct confirm_placement_on_display_tiled_unchanged
    as (Htiled & _ & _ & _ & Hfloating & _).
  split; [ reflexivity | ].
  split.
  - apply (Htiled (sample_output 2 1%nat) tiled_metadata mir_window_state_restored
             (rect 0 0 960 1080) tiled_left_leaf); reflexivity.
  - apply (Hfloating (sample_output 2 10%nat) floating_metadata); reflexivity.
Defined.

(** * Further properties *)

(** ** Gaps between neighbors *)

Lemma half_gap_twice (gap : Z) :
  gap <= 2 * half_gap gap <= gap + 1 /\
  (Z.even gap = true -> 2 * half_gap gap = gap) /\
  (Z.odd gap = true -> 2 * half_gap gap = gap + 1).
Proof.
  pose proof (half_gap_is_ceiling gap) as Hc.
  split; [ lia | split ].
  - intros He. apply Z.even_spec in He as [m Hm]. lia.
  - intros Ho. apply Z.odd_spec in Ho as [m Hm]. lia.
Qed.

(** X1.  Two leaves with the same gaps that meet at an edge, each reporting
    the other as its neighbor, and on which the int arithmetic of
    get_visible_area() does not overflow, give up the same half gap on that
    edge, so their visible areas are 2*ceil(gap/2) apart: the configured gap
    when it is even, one pixel more when it is odd.  This holds side by side
    (gap_x) and one above the other (gap_y). *)
Theorem adjacent_leaves_gap (a b : LeafNode) :
  get_visible_area_in_range a ->
  get_visible_area_in_range b ->
  config a = config b ->
  (get_neighbors a right = true -> get_neighbors b left = true ->
   geom.right (logical_area a) = geom.left (logical_area b) ->
   let gap_x := get_inner_gaps_x (config a) in
   let between := geom.left (get_visible_area b) - geom.right (get_visible_area a) in
   geom.right (logical_area a) - geom.right (get_visible_area a) = half_gap gap_x /\
   geom.left (get_visible_area b) - geom.left (logical_area b) = half_gap gap_x /\
   between = 2 * half_gap gap_x /\
   gap_x <= between <= gap_x + 1 /\
   (Z.even gap_x = true -> between = gap_x) /\
   (Z.odd gap_x = true -> between = gap_x + 1)) /\
  (get_neighbors a down = true -> get_neighbors b up = true ->
   geom.bottom (logical_area a) = geom.top (logical_area b) ->
   let gap_y := get_inner_gaps_y (config a) in
   let between := geom.top (get_visible_area b) - geom.bottom (get_visible_area a) in
   geom.bottom (logical_area a) - geom.bottom (get_visible_area a) = half_gap gap_y /\
   geom.top (get_visible_area b) - geom.top (logical_area b) = half_gap gap_y /\
   between = 2 * half_gap gap_y /\
   gap_y <= between <= gap_y + 1 /\
   (Z.even gap_y = true -> between = gap_y) /\
   (Z.odd gap_y = true -> between = gap_y + 1)).
Proof.
  intros Hrange_a Hrange_b Hconfig.
  destruct (get_visible_area_edges a Hrange_a) as (_ & Har & _ & Hab).
  destruct (get_visible_area_edges b Hrange_b) as (Hbl & _ & Hbt & _).
  unfold side_gap in *. rewrite <- Hconfig in Hbl, Hbt.
  split.
  - intros Hna Hnb Hmeet. cbn zeta.
    rewrite Hna in Har. rewrite Hnb in Hbl.
    destruct (half_gap_twice (get_inner_gaps_x (config a))) as (Hr & He & Ho).
    repeat split; try lia.
    + intros Heven. specialize (He Heven). lia.
    + intros Hodd. specialize (Ho Hodd). lia.
  - intros Hna Hnb Hmeet. cbn zeta.
    rewrite Hna in Hab. rewrite Hnb in Hbt.
    destruct (half_gap_twice (get_inner_gaps_y (config a))) as (Hr & He & Ho).
    repeat split; try lia.
    + intros Heven. specialize (He Heven). lia.
    + intros Hodd. specialize (Ho Hodd). lia.
Qed.

(** The two sample leaves are 10 pixels apart; at a gap of 7 two such leaves
    are 8 apart. *)
Lemma adjacent_leaves_gap_witness :
  (get_visible_area_in_range left_leaf /\ get_visible_area_in_range right_leaf /\
   geom.left (get_visible_area right_leaf) - geom.right (get_visible_area left_leaf)
   = 10) /\
  (let a := new_leaf 1%nat (rect 0 0 960 1080) 7 7 (only right) in
   let b := new_leaf 2%nat (rect 960 0 960 1080) 7 7 (only left) in
   geom.left (get_visible_area b) - geom.right (get_visible_area a) = 7 + 1).
Proof.
  assert (Hleft : get_visible_area_in_range left_leaf)
    by (apply get_visible_area_in_range_of_bounds; cbn; lia).
  assert (Hright : get_visible_area_in_range right_leaf)
    by (apply get_visible_area_in_range_of_bounds; cbn; lia).
  assert (Ha : get_visible_area_in_range
                 (new_leaf 1%nat (rect 0 0 960 1080) 7 7 (only right)))
    by (apply get_visible_area_in_range_of_bounds; cbn; lia).
  assert (Hb : get_visible_area_in_range
                 (new_leaf 2%nat (rect 960 0 960 1080) 7 7 (only left)))
    by (apply get_visible_area_in_range_of_bounds; cbn; lia).
  split.
  - split; [ exact Hleft | split; [ exact Hright | ] ].
    destruct (adjacent_leaves_gap left_leaf right_leaf Hleft Hright eq_refl)
      as (Hside & _).
    destruct (Hside eq_refl eq_refl eq_refl) as (_ & _ & _ & _ & Heven & _).
    apply Heven. reflexivity.
  - destruct (adjacent_leaves_gap
                (new_leaf 1%nat (rect 0 0 960 1080) 7 7 (only right))
                (new_leaf 2%nat (rect 960 0 960 1080) 7 7 (only left))
                Ha Hb eq_refl)
      as (Hside & _).
    destruct (Hside eq_refl eq_refl eq_refl) as (_ & _ & _ & _ & _ & Hodd).
    apply Hodd. reflexivity.
Defined.

(** The width of the visible area, whatever happens to the other fields,
    when the differences taken on the width do not overflow. *)
Lemma get_visible_area_width_only (self : LeafNode) :
  let w := geom.width (geom.size (logical_area self)) in
  let half_gap_x := half_gap (get_inner_gaps_x (config self)) in
  in_int (w - half_gap_x) ->
  in_int (w - half_gap_x - half_gap_x) ->
  geom.width (geom.size (get_visible_area self))
  = w - (if get_neighbors self left then half_gap_x else 0)
    - (if get_neighbors self right then half_gap_x else 0).
Proof.
  cbn zeta. intros H1 H2. unfold get_visible_area, int_sub.
  destruct (get_neighbors self left), (get_neighbors self right),
    (get_neighbors self up), (get_neighbors self down); cbn;
    rewrite ?(wrap_int_id _ H1); rewrite ?(wrap_int_id _ H2); lia.
Qed.

Lemma get_visible_area_height_only (self : LeafNode) :
  let h := geom.height (geom.size (logical_area self)) in
  let half_gap_y := half_gap (get_inner_gaps_y (config self)) in
  in_int (h - half_gap_y) ->
  in_int (h - half_gap_y - half_gap_y) ->
  geom.height (geom.size (get_visible_area self))
  = h - (if get_neighbors self up then half_gap_y else 0)
    - (if get_neighbors self down then half_gap_y else 0).
Proof.
  cbn zeta. intros H1 H2. unfold get_visible_area, int_sub.
  destruct (get_neighbors self left), (get_neighbors self right),
    (get_neighbors self up), (get_neighbors self down); cbn;
    rewrite ?(wrap_int_id _ H1); rewrite ?(wrap_int_id _ H2); lia.
Qed.

(** X2.  For a leaf whose size is a non-negative int and whose gaps are
    non-negative ints, the visible area is never larger than the logical one
    and never smaller than the logical one less two half gaps.  A leaf that
    is at least as large as its minimum size, 50 by 50, keeps a visible area
    of non-negative width and height for gaps from 0 to 50, whatever its
    neighbors. *)
Theorem get_visible_area_nonnegative_size (self : LeafNode) :
  let l := logical_area self in
  let v := get_visible_area self in
  (in_int (get_inner_gaps_x (config self)) -> in_int (geom.width (geom.size l)) ->
   0 <= get_inner_gaps_x (config self) -> 0 <= geom.width (geom.size l) ->
   geom.width (geom.size l) - 2 * half_gap (get_inner_gaps_x (config self))
     <= geom.width (geom.size v) <= geom.width (geom.size l)) /\
  (in_int (get_inner_gaps_y (config self)) -> in_int (geom.height (geom.size l)) ->
   0 <= get_inner_gaps_y (config self) -> 0 <= geom.height (geom.size l) ->
   geom.height (geom.size l) - 2 * half_gap (get_inner_gaps_y (config self))
     <= geom.height (geom.size v) <= geom.height (geom.size l)) /\
  (in_int (geom.width (geom.size l)) ->
   0 <= get_inner_gaps_x (config self) <= 50 ->
   get_min_width self <= geom.width (geom.size l) ->
   0 <= geom.width (geom.size v)) /\
  (in_int (geom.height (geom.size l)) ->
   0 <= get_inner_gaps_y (config self) <= 50 ->
   get_min_height self <= geom.height (geom.size l) ->
   0 <= geom.height (geom.size v)).
Proof.
  cbn zeta.
  pose proof (get_visible_area_width_only self) as Hw.
  pose proof (get_visible_area_height_only self) as Hh.
  pose proof (half_gap_is_ceiling (get_inner_gaps_x (config self))) as Hx.
  pose proof (half_gap_is_ceiling (get_inner_gaps_y (config self))) as Hy.
  cbn zeta in Hw, Hh.
  unfold get_min_width, get_min_height, in_int in *.
  change (2 ^ 31) with 2147483648 in *.
  repeat split; intros.
  all: first [ rewrite Hw by lia | rewrite Hh by lia ].
  all: destruct (get_neighbors self left), (get_neighbors self right),
         (get_neighbors self up), (get_neighbors self down); lia.
Qed.

(** A 50x50 leaf with neighbors on all sides at gaps of 50 is visible as an
    empty 0x0 rectangle, and is not negative. *)
Lemma get_visible_area_nonnegative_size_witness :
  let self := new_leaf 1%nat (rect 0 0 50 50) 50 50 (fun _ => true) in
  get_visible_area self = rect 25 25 0 0 /\
  0 <= geom.width (geom.size (get_visible_area self)) /\
  0 <= geom.height (geom.size (get_visible_area self)).
Proof.
  destruct (get_visible_area_nonnegative_size
              (new_leaf 1%nat (rect 0 0 50 50) 50 50 (fun _ => true)))
    as (_ & _ & Hw & Hh).
  split; [ reflexivity | ].
  split; [ apply Hw | apply Hh ];
    cbn; unfold in_int, get_min_width, get_min_height; lia.
Defined.

(** With a gap of 51 the same leaf has a visible width of -2. *)
Example get_visible_area_negative_width :
  get_visible_area (new_leaf 1%nat (rect 0 0 50 50) 51 0 (fun _ => true))
  = rect 26 0 (-2) 50.
Proof. reflexivity. Qed.

(** ** What a commit sends to the host *)

Section CommitProperties.

Context {Host : Type} `{TilingInterface Host}.

(** X3.  The calls of one commit_changes() are at most four, all about the
    leaf's own window.  There is one change_state call when a window state
    is pending, the first call of the commit and with that state, and none
    otherwise; there is at most one set_rectangle call, and none when no
    area is pending. *)
Theorem commit_changes_call_discipline (self : LeafNode) (W : World Host) :
  exists new_calls,
    calls (snd (commit_changes self W)) = calls W ++ new_calls /\
    (forall c, In c new_calls -> call_window c = window self) /\
    (List.length new_calls <= 4)%nat /\
    count_calls is_change_state new_calls
      = match next_state self with Some _ => 1%nat | None => 0%nat end /\
    (forall s, next_state self = Some s ->
       hd_error new_calls = Some (call_change_state (window self) s)) /\
    (count_calls is_set_rectangle new_calls <= 1)%nat /\
    (next_logical_area self = None -> count_calls is_set_rectangle new_calls = 0%nat).
Proof.
  unfold commit_changes, constrain, invoke.
  destruct (next_state self) as [s|] eqn:Es;
    destruct (next_logical_area self) as [r|] eqn:Er; cbn; rewrite ?Er; cbn.
  all: repeat innermost_is_fullscreen.
  all: rewrite <- ?app_assoc; cbn [app].
  all: first [ eexists; split; [ reflexivity | ]
             | exists []; split; [ symmetry; apply app_nil_r | ] ].
  all: cbn.
  all: repeat split; try lia; try discriminate.
  all: try (intros c Hc; repeat destruct Hc as [<- | Hc]; try contradiction; reflexivity).
  all: try (intros s' Hs'; injection Hs' as <-; reflexivity).
Qed.

Lemma set_logical_area_fold (rs : list geom.Rectangle) :
  forall (self : LeafNode) (r : geom.Rectangle),
    set_logical_area (fold_left set_logical_area rs self) r = set_logical_area self r.
Proof.
  induction rs as [|r1 rs IH]; intros self r; cbn [fold_left]; [ reflexivity | ].
  rewrite IH. reflexivity.
Qed.

(** X4.  However many areas are staged one after the other, the commit acts
    on the last one alone: the leaf and the host end as if only the last
    rectangle had been staged.  The committed area is the last rectangle, and
    the only set_rectangle call a commit can add goes from the visible area
    the leaf had to the visible area of the last rectangle; the rectangles
    staged before it never reach the host. *)
Theorem staged_areas_last_wins (self : LeafNode) (rs : list geom.Rectangle)
    (r : geom.Rectangle) (W : World Host) :
  let staged := fold_left set_logical_area (rs ++ [r]) self in
  commit_changes staged W = commit_changes (set_logical_area self r) W /\
  logical_area (fst (commit_changes staged W)) = r /\
  forall w from to,
    In (call_set_rectangle w from to) (calls (snd (commit_changes staged W))) ->
    In (call_set_rectangle w from to) (calls W) \/
    (w = window self /\ from = get_visible_area self /\
     to = get_visible_area (fst (commit_changes staged W))).
Proof.
  cbn zeta.
  rewrite fold_left_app. cbn [fold_left]. rewrite set_logical_area_fold.
  split; [ reflexivity | ].
  destruct (commit_changes_fields (set_logical_area self r) W) as (_ & Hl & _).
  split; [ exact Hl | ].
  intros w from to.
  unfold commit_changes, constrain, invoke.
  destruct (next_state self) as [s|] eqn:Es; cbn; rewrite ?Es; cbn.
  all: repeat innermost_is_fullscreen.
  all: rewrite ?in_app_iff; cbn.
  all: intros Hin; decompose [or] Hin; try discriminate; try contradiction; auto.
  all: match goal with
       | Heq : call_set_rectangle _ _ _ = call_set_rectangle _ _ _ |- _ =>
           injection Heq as <- <- <-
       end.
  all: right; repeat split; reflexivity.
Qed.

(** On a host that tracks states a constrain leaves every state as it is. *)
Lemma constrain_get_state (p : MirWindowState -> bool) (Hlaws : tracks_state p)
    (self : LeafNode) (W : World Host) (w : Window) :
  get_state (node_interface (constrain self W)) w = get_state (node_interface W) w.
Proof.
  unfold constrain.
  destruct (is_fullscreen (node_interface W) (window self)); cbn.
  - apply (get_state_noclip _ Hlaws).
  - apply (get_state_clip _ Hlaws).
Qed.

(** On such a host a commit leaves the window in the pending state, or in
    the state it had when none is pending. *)
Lemma commit_changes_get_state (p : MirWindowState -> bool) (Hlaws : tracks_state p)
    (self : LeafNode) (W : World Host) :
  get_state (node_interface (snd (commit_changes self W))) (window self)
  = match next_state self with
    | Some s => s
    | None => get_state (node_interface W) (window self)
    end.
Proof.
  unfold commit_changes.
  destruct (next_state self) as [s|] eqn:Es;
    destruct (next_logical_area self) as [r|] eqn:Er; cbn; rewrite ?Er; cbn.
  all: repeat match goal with
         | |- context [negb ?b] => destruct b; cbn
         end.
  all: rewrite ?(constrain_get_state p Hlaws); cbn.
  all: rewrite ?(get_state_set_rectangle _ Hlaws).
  all: rewrite ?(constrain_get_state p Hlaws); cbn.
  all: rewrite ?(get_state_change_state _ Hlaws); reflexivity.
Qed.

(** A commit whose pending state is a fullscreen one, on a host that tracks
    states: the state is changed, the clip removed, and a pending area is
    taken without a call. *)
Lemma commit_changes_to_fullscreen (p : MirWindowState -> bool) (Hlaws : tracks_state p)
    (self : LeafNode) (W : World Host) (s : MirWindowState) :
  next_state self = Some s ->
  p s = true ->
  commit_changes self W
  = (match next_logical_area self with
     | Some r => take_next_logical_area (set_next_state self None) r
     | None => set_next_state self None
     end,
     invoke (call_noclip (window self)) (invoke (call_change_state (window self) s) W)).
Proof.
  intros Hs Hp. unfold commit_changes, constrain. rewrite Hs. host_laws Hlaws.
  rewrite Hp.
  destruct (next_logical_area self) as [r|]; host_laws Hlaws; rewrite ?Hp;
    reflexivity.
Qed.

(** A commit whose pending state is not a fullscreen one, with no area
    pending: the state is changed and the window clipped. *)
Lemma commit_changes_from_fullscreen (p : MirWindowState -> bool) (Hlaws : tracks_state p)
    (self : LeafNode) (W : World Host) (s : MirWindowState) :
  next_state self = Some s ->
  p s = false ->
  next_logical_area self = None ->
  commit_changes self W
  = (set_next_state self None,
     invoke (call_clip (window self) (get_visible_area self))
       (invoke (call_change_state (window self) s) W)).
Proof.
  intros Hs Hp Ha. unfold commit_changes, constrain. rewrite Hs. host_laws Hlaws.
  rewrite Hp, Ha. reflexivity.
Qed.

(** X5.  On a host that tracks window states and calls the maximized state
    fullscreen and the restored state not, toggling a leaf that is not
    fullscreen and committing, twice over, first maximizes the window and
    removes its clip, then restores it and clips it to the leaf's visible
    area.  No set_rectangle call is made on the way, even when an area was
    pending: that area is committed while the window is fullscreen and is
    only used for the clip afterwards. *)
Theorem toggle_fullscreen_twice (p : MirWindowState -> bool)
    (self : LeafNode) (W : World Host) :
  tracks_state p ->
  p mir_window_state_maximized = true ->
  p mir_window_state_restored = false ->
  is_fullscreen (node_interface W) (window self) = false ->
  let w := window self in
  let once := commit_changes (toggle_fullscreen self W) W in
  let twice := commit_changes (toggle_fullscreen (fst once) (snd once)) (snd once) in
  calls (snd once)
    = calls W ++ [call_change_state w mir_window_state_maximized; call_noclip w] /\
  is_fullscreen (node_interface (snd once)) w = true /\
  logical_area (fst once) = get_logical_area self /\
  calls (snd twice)
    = calls (snd once)
      ++ [call_change_state w mir_window_state_restored;
          call_clip w (get_visible_area (fst once))] /\
  is_fullscreen (node_interface (snd twice)) w = false /\
  get_state (node_interface (snd twice)) w = mir_window_state_restored /\
  logical_area (fst twice) = get_logical_area self /\
  next_state (fst twice) = None /\
  next_logical_area (fst twice) = None /\
  (next_logical_area self = None ->
   get_visible_area (fst once) = get_visible_area self).
Proof.
  intros Hlaws Hmax Hrestored Hnot. cbn zeta.
  assert (Htoggle : toggle_fullscreen self W
                    = set_next_state self (Some mir_window_state_maximized))
    by (unfold toggle_fullscreen; rewrite Hnot; reflexivity).
  rewrite Htoggle.
  rewrite (commit_changes_to_fullscreen p Hlaws
             (set_next_state self (Some mir_window_state_maximized)) W
             mir_window_state_maximized eq_refl Hmax).
  cbn [fst snd set_next_state window next_logical_area].
  match goal with
  | |- context [toggle_fullscreen ?leaf _] => set (once := leaf)
  end.
  assert (Hw : window once = window self)
    by (subst once; destruct (next_logical_area self); reflexivity).
  assert (Ha : next_logical_area once = None)
    by (subst once; destruct (next_logical_area self) eqn:E; cbn; auto).
  assert (Hl : logical_area once = get_logical_area self)
    by (subst once; unfold get_logical_area;
        destruct (next_logical_area self); reflexivity).
  unfold toggle_fullscreen. rewrite Hw.
  assert (Hfull : is_fullscreen
            (node_interface
               (invoke (call_noclip (window self))
                  (invoke (call_change_state (window self) mir_window_state_maximized) W)))
            (window self) = true)
    by (host_laws Hlaws; exact Hmax).
  rewrite Hfull.
  rewrite (commit_changes_from_fullscreen p Hlaws
             (set_next_state once (Some mir_window_state_restored)) _
             mir_window_state_restored eq_refl Hrestored Ha).
  cbn [fst snd set_next_state window next_logical_area logical_area next_state].
  rewrite Hw.
  repeat split; try reflexivity; try assumption.
  - cbn. rewrite <- app_assoc. reflexivity.
  - cbn. rewrite <- !app_assoc. reflexivity.
  - host_laws Hlaws. exact Hrestored.
  - host_laws Hlaws. reflexivity.
  - intros Hnone. subst once. rewrite Hnone. reflexivity.
Qed.

(** X6.  On a host that tracks window states, hiding a leaf and committing
    leaves the window hidden, and showing it then and committing again
    leaves the window in the state it had before the hide, with no state
    pending and no snapshot kept. *)
Theorem hide_show_restores_state (p : MirWindowState -> bool)
    (self : LeafNode) (W : World Host) :
  tracks_state p ->
  let w := window self in
  let hidden := commit_changes (hide self W) W in
  let shown := commit_changes (show (fst hidden)) (snd hidden) in
  get_state (node_interface (snd hidden)) w = mir_window_state_hidden /\
  get_state (node_interface (snd shown)) w = get_state (node_interface W) w /\
  next_state (fst shown) = None /\
  before_shown_state (fst shown) = None /\
  logical_area (fst shown) = get_logical_area self.
Proof.
  intros Hlaws. cbn zeta.
  pose proof (commit_changes_get_state p Hlaws (hide self W) W) as Hhidden.
  destruct (commit_changes_fields (hide self W) W)
    as (Hw & Hl & Ha & Hs & Hb & _).
  cbn in Hhidden, Hw, Hb.
  set (hidden := commit_changes (hide self W) W) in *.
  pose proof (commit_changes_get_state p Hlaws (show (fst hidden)) (snd hidden))
    as Hshown.
  destruct (commit_changes_fields (show (fst hidden)) (snd hidden))
    as (_ & Hl' & _ & Hs' & Hb' & _).
  cbn in Hshown, Hb'. rewrite Hw, Hb in Hshown.
  repeat split; try assumption.
  rewrite Hl'. unfold get_logical_area at 1.
  change (next_logical_area (show (fst hidden)))
    with (next_logical_area (fst hidden)).
  rewrite Ha. exact Hl.
Qed.

End CommitProperties.

Lemma StateTable_tracks_state : tracks_state (Host := StateTable) maximized_only.
Proof.
  split; cbn; intros; try reflexivity.
  rewrite Nat.eqb_refl. reflexivity.
Qed.

(** The sample host: toggling the left leaf twice, with an area pending. *)
Lemma toggle_fullscreen_twice_witness :
  let self := set_logical_area left_leaf (rect 0 0 640 1080) in
  let once := commit_changes (toggle_fullscreen self sample_world) sample_world in
  let twice := commit_changes (toggle_fullscreen (fst once) (snd once)) (snd once) in
  calls (snd twice)
  = [call_change_state 1%nat mir_window_state_maximized;
     call_noclip 1%nat;
     call_change_state 1%nat mir_window_state_restored;
     call_clip 1%nat (rect 0 0 635 1080)] /\
  logical_area (fst twice) = rect 0 0 640 1080.
Proof.
  destruct (toggle_fullscreen_twice maximized_only
              (set_logical_area left_leaf (rect 0 0 640 1080)) sample_world
              StateTable_tracks_state eq_refl eq_refl eq_refl)
    as (Honce & _ & _ & Htwice & _ & _ & Harea & _).
  split.
  - cbn zeta. rewrite Htwice, Honce. reflexivity.
  - exact Harea.
Defined.

(** The sample host: a maximized window that is hidden and shown again is
    maximized again. *)
Lemma hide_show_restores_state_witness :
  let W := snd (commit_changes (toggle_fullscreen left_leaf sample_world) sample_world) in
  let hidden := commit_changes (hide left_leaf W) W in
  let shown := commit_changes (show (fst hidden)) (snd hidden) in
  get_state (node_interface W) 1%nat = mir_window_state_maximized /\
  get_state (node_interface (snd hidden)) 1%nat = mir_window_state_hidden /\
  get_state (node_interface (snd shown)) 1%nat = mir_window_state_maximized.
Proof.
  destruct (hide_show_restores_state maximized_only left_leaf
              (snd (commit_changes (toggle_fullscreen left_leaf sample_world)
                      sample_world))
              StateTable_tracks_state)
    as (Hhidden & Hshown & _).
  split; [ reflexivity | ].
  split; [ exact Hhidden | exact Hshown ].
Defined.

(** ** What select_window_from_point can select *)

Section SelectWindowFromPointShape.

Variable Window_top_left : Window -> geom.Point.
Variable Window_size : Window -> geom.Size.
Variable Rectangle_contains : geom.Rectangle -> geom.Point -> bool.

#[local] Abbreviation at_point' :=
  (floating_window_at Window_top_left Window_size Rectangle_contains).
#[local] Abbreviation loop' :=
  (floating_loop Window_top_left Window_size Rectangle_contains).

(** When the loop runs to its end, [floating_index] is the value it started
    with or the index of a window under the point that is not the active
    window. *)
Lemma floating_loop_index_hit (active : Window) (x y : Z) (rest : list Window) :
  forall i floating_index last,
    loop' active x y rest i floating_index = loop_end last ->
    last = floating_index \/
    (i <= last /\
     exists w, nth_error rest (Z.to_nat (last - i)) = Some w /\
               at_point' w x y = true /\ w <> active).
Proof.
  induction rest as [|w rest IH]; cbn [floating_loop];
    intros i floating_index last Hend.
  - injection Hend as <-. left. reflexivity.
  - destruct (Nat.eqb_spec w active) as [Heq | Hne]; cbn [andb] in Hend.
    + destruct (at_point' w x y) eqn:Hat; [ discriminate | ].
      apply IH in Hend as [-> | (Hle & w' & Hnth & Hw')]; [ left; reflexivity | ].
      right. split; [ lia | ]. exists w'. split; [ | exact Hw' ].
      replace (Z.to_nat (last - i)) with (S (Z.to_nat (last - (i + 1)))) by lia.
      exact Hnth.
    + destruct (at_point' w x y) eqn:Hat.
      * apply IH in Hend as [-> | (Hle & w' & Hnth & Hw')].
        -- right. split; [ lia | ]. exists w.
           rewrite Z.sub_diag. cbn. auto.
        -- right. split; [ lia | ]. exists w'. split; [ | exact Hw' ].
           replace (Z.to_nat (last - i)) with (S (Z.to_nat (last - (i + 1)))) by lia.
           exact Hnth.
      * apply IH in Hend as [-> | (Hle & w' & Hnth & Hw')]; [ left; reflexivity | ].
        right. split; [ lia | ]. exists w'. split; [ | exact Hw' ].
        replace (Z.to_nat (last - i)) with (S (Z.to_nat (last - (i + 1)))) by lia.
        exact Hnth.
Qed.

(** The effects of the body of select_window_from_point have one of four
    shapes, and a window that is selected is not the active one. *)
Lemma select_in_shape (self : OutputContent) (workspace : WorkspaceContent) (x y : Z) :
  let effects :=
    select_window_from_point_in Window_top_left Window_size Rectangle_contains
      self workspace x y in
  effects = [] \/
  effects = [tree_select_window_from_point x y] \/
  exists w, w <> active_window self /\
    (effects = [tools_select_active_window w] \/
     effects = [tree_select_window_from_point x y; tools_select_active_window w]).
Proof.
  cbn zeta. unfold select_window_from_point_in.
  destruct (has_fullscreen_window (get_tree workspace)); [ left; reflexivity | ].
  destruct (floating_loop _ _ _ _ _ _ _ _ _) as [|last] eqn:Hloop;
    [ left; reflexivity | ].
  destruct (last >=? 0) eqn:Hlast.
  - apply Z.geb_le in Hlast.
    apply floating_loop_index_hit in Hloop as [-> | (_ & w & Hnth & _ & Hne)];
      [ lia | ].
    rewrite Z.sub_0_r in Hnth. rewrite Hnth.
    right. right. exists w. auto.
  - destruct (select_window_from_point (get_tree workspace) x y) as [node|];
      [ | right; left; reflexivity ].
    destruct (Nat.eqb_spec (window node) (active_window self)) as [Heq | Hne]; cbn.
    + right. left. reflexivity.
    + right. right. exists (window node). auto.
Qed.

(** X7.  Whatever the windows and the point, select_window_from_point never
    selects the window that is active already, selects at most one window,
    and asks the tree for at most one hit test, which then comes before the
    selection. *)
Theorem select_window_from_point_never_selects_active
    (self : OutputContent) (x y : Z) (effects : list Effect) :
  OutputContent_select_window_from_point
    Window_top_left Window_size Rectangle_contains self x y = returns effects ->
  ~ In (tools_select_active_window (active_window self)) effects /\
  (effects = [] \/
   effects = [tree_select_window_from_point x y] \/
   exists w, w <> active_window self /\
     (effects = [tools_select_active_window w] \/
      effects = [tree_select_window_from_point x y; tools_select_active_window w])).
Proof.
  unfold OutputContent_select_window_from_point.
  destruct (get_active_workspace self) as [workspace|e]; [ | discriminate ].
  intros Hret. injection Hret as <-.
  pose proof (select_in_shape self workspace x y) as Hshape. cbn zeta in Hshape.
  split; [ | exact Hshape ].
  destruct Hshape as [-> | [-> | (w & Hne & [-> | ->])]]; cbn;
    intros Hin; decompose [or] Hin; try discriminate; try contradiction.
  all: match goal with
       | Heq : tools_select_active_window _ = tools_select_active_window _ |- _ =>
           injection Heq as Heq; contradiction
       end.
Qed.

End SelectWindowFromPointShape.

(** On the sample output with window 10 active, (320,320) is under window 11
    alone: window 11 is selected and window 10 is not. *)
Lemma select_window_from_point_never_selects_active_witness :
  sample_select_window_from_point (sample_output 2 10%nat) 320 320
    = returns [tools_select_active_window 11%nat] /\
  ~ In (tools_select_active_window 10%nat) [tools_select_active_window 11%nat].
Proof.
  split; [ reflexivity | ].
  apply (select_window_from_point_never_selects_active
           sample_top_left sample_size Rectangle_contains_point
           (sample_output 2 10%nat) 320 320 [tools_select_active_window 11%nat]).
  reflexivity.
Defined.

(** ** Finding a window by a predicate *)

Lemma first_floating_matching_found (f : Window -> bool) (floating : list Window)
    (w : Window) :
  first_floating_matching f floating = Some w ->
  exists before after,
    floating = before ++ w :: after /\ f w = true /\
    forall b, In b before -> f b = false.
Proof.
  induction floating as [|first rest IH]; cbn; [ discriminate | ].
  destruct (f first) eqn:Ef.
  - intros Hret. injection Hret as <-.
    exists [], rest. repeat split; [ exact Ef | intros b [] ].
  - intros Hret. destruct (IH Hret) as (before & after & -> & Hw & Hbefore).
    exists (first :: before), after. repeat split; [ exact Hw | ].
    intros b [<- | Hb]; [ exact Ef | now apply Hbefore ].
Qed.

Lemma first_floating_matching_first (f : Window -> bool)
    (before : list Window) (w : Window) (after : list Window) :
  f w = true ->
  (forall b, In b before -> f b = false) ->
  first_floating_matching f (before ++ w :: after) = Some w.
Proof.
  intros Hw. induction before as [|b before IH]; cbn; intros Hbefore.
  - rewrite Hw. reflexivity.
  - rewrite (Hbefore b) by auto. apply IH. auto.
Qed.

Lemma first_floating_matching_none (f : Window -> bool) (floating : list Window) :
  (forall w, In w floating -> f w = false) ->
  first_floating_matching f floating = None.
Proof.
  induction floating as [|w rest IH]; cbn; intros Hnone; [ reflexivity | ].
  rewrite (Hnone w) by auto. apply IH. auto.
Qed.

(** X8.  find_window_on_active_workspace_matching_predicate answers from the
    floating windows of the active workspace alone: the first of them that
    passes the predicate, and the null window when none does, whatever the
    tiled leaves of the tree are.  A window it returns is a floating window
    that passes the predicate.  Without an active workspace it throws. *)
Theorem find_window_only_among_floating (self : OutputContent) (f : Window -> bool) :
  (forall workspace,
     get_active_workspace self = returns workspace ->
     ((forall w, In w (get_floating_windows workspace) -> f w = false) ->
      find_window_on_active_workspace_matching_predicate self f = returns None) /\
     (forall before w after,
        get_floating_windows workspace = before ++ w :: after ->
        f w = true ->
        (forall b, In b before -> f b = false) ->
        find_window_on_active_workspace_matching_predicate self f = returns (Some w)) /\
     (forall w,
        find_window_on_active_workspace_matching_predicate self f = returns (Some w) ->
        In w (get_floating_windows workspace) /\ f w = true)) /\
  (forall e,
     get_active_workspace self = throws e ->
     find_window_on_active_workspace_matching_predicate self f = throws e).
Proof.
  unfold find_window_on_active_workspace_matching_predicate.
  split.
  - intros workspace Hws. rewrite Hws. split; [ | split ].
    + intros Hnone. rewrite first_floating_matching_none by exact Hnone. reflexivity.
    + intros before w after Hsplit Hw Hbefore.
      rewrite Hsplit, first_floating_matching_first by assumption. reflexivity.
    + intros w Hret. injection Hret as Hret.
      destruct (first_floating_matching_found _ _ _ Hret)
        as (before & after & Hsplit & Hw & _).
      split; [ | exact Hw ].
      rewrite Hsplit. apply in_or_app. right. left. reflexivity.
  - intros e Hws. rewrite Hws. reflexivity.
Qed.

(** On the sample output the predicate "is window 1 or window 11" finds the
    floating window 11 on workspace 2, although the left leaf of the tree is
    window 1, and finds nothing on workspace 1, which has no floating window. *)
Lemma find_window_only_among_floating_witness :
  let f := fun w => ((w =? 1) || (w =? 11))%nat in
  option_map window (select_window_from_point (two_leaf_tree false) 10 10) = Some 1%nat /\
  find_window_on_active_workspace_matching_predicate (sample_output 2 0%nat) f
    = returns (Some 11%nat) /\
  find_window_on_active_workspace_matching_predicate (sample_output 1 0%nat) f
    = returns None /\
  find_window_on_active_workspace_matching_predicate (sample_output 7 0%nat) f
    = throws get_active_workspace_error.
Proof.
  cbn zeta.
  destruct (find_window_only_among_floating (sample_output 2 0%nat)
              (fun w => ((w =? 1) || (w =? 11))%nat)) as (Hfound & _).
  destruct (Hfound (sample_workspace 2 false [10%nat; 11%nat]) eq_refl)
    as (_ & Hfirst & _).
  destruct (find_window_only_among_floating (sample_output 1 0%nat)
              (fun w => ((w =? 1) || (w =? 11))%nat)) as (Hfound1 & _).
  destruct (Hfound1 (sample_workspace 1 false []) eq_refl) as (Hnone & _).
  destruct (find_window_only_among_floating (sample_output 7 0%nat)
              (fun w => ((w =? 1) || (w =? 11))%nat)) as (_ & Hthrows).
  split; [ reflexivity | ].
  split.
  { apply (Hfirst [10%nat] 11%nat []); [ reflexivity | reflexivity | ].
    intros b [<- | []]. reflexivity. }
  split; [ apply Hnone; intros w [] | ].
  apply Hthrows. reflexivity.
Defined.

(** ** Adding and deleting workspaces *)

Lemma set_workspaces_same (self : OutputContent) :
  set_workspaces self (workspaces self) = self.
Proof. destruct self; reflexivity. Qed.

Lemma advise_workspace_deleted_from_missing (infos : list WorkspaceContent) (key : Z) :
  (forall info, In info infos -> get_workspace info <> key) ->
  advise_workspace_deleted_from infos key = infos.
Proof.
  induction infos as [|first rest IH]; cbn; intros Hnone; [ reflexivity | ].
  destruct (Z.eqb_spec (get_workspace first) key) as [Heq | _].
  - exfalso. apply (Hnone first); auto.
  - rewrite IH; auto.
Qed.

Lemma advise_workspace_deleted_from_first (before : list WorkspaceContent)
    (info : WorkspaceContent) (after : list WorkspaceContent) (key : Z) :
  get_workspace info = key ->
  (forall other, In other before -> get_workspace other <> key) ->
  advise_workspace_deleted_from (before ++ info :: after) key = before ++ after.
Proof.
  intros Hkey. induction before as [|b before IH]; cbn; intros Hbefore.
  - rewrite Hkey, Z.eqb_refl. reflexivity.
  - destruct (Z.eqb_spec (get_workspace b) key) as [Heq | _].
    + exfalso. apply (Hbefore b); auto.
    + rewrite IH; auto.
Qed.

(** Deleting a key does not disturb the search for another key. *)
Lemma get_active_workspace_from_deleted (infos : list WorkspaceContent)
    (key active : Z) :
  key <> active ->
  get_active_workspace_from (advise_workspace_deleted_from infos key) active
  = get_active_workspace_from infos active.
Proof.
  intros Hne. induction infos as [|first rest IH]; cbn; [ reflexivity | ].
  destruct (Z.eqb_spec (get_workspace first) key) as [Hk | Hk].
  - destruct (Z.eqb_spec (get_workspace first) active) as [Ha | _];
      [ congruence | reflexivity ].
  - cbn. rewrite IH. reflexivity.
Qed.

(** X9.  advise_workspace_deleted(key) erases the first workspace of the
    list that has the key and nothing else; later workspaces with the same
    key stay.  When no workspace has the key the output is unchanged.  The
    active workspace key and the active window are never touched. *)
Theorem advise_workspace_deleted_erases_first (self : OutputContent) (key : Z) :
  ((forall info, In info (workspaces self) -> get_workspace info <> key) ->
   advise_workspace_deleted self key = self) /\
  (forall before info after,
     workspaces self = before ++ info :: after ->
     get_workspace info = key ->
     (forall other, In other before -> get_workspace other <> key) ->
     workspaces (advise_workspace_deleted self key) = before ++ after) /\
  active_workspace (advise_workspace_deleted self key) = active_workspace self /\
  active_window (advise_workspace_deleted self key) = active_window self.
Proof.
  unfold advise_workspace_deleted.
  split; [ | split; [ | split; reflexivity ] ].
  - intros Hnone. rewrite advise_workspace_deleted_from_missing by exact Hnone.
    apply set_workspaces_same.
  - intros before info after Hsplit Hkey Hbefore. cbn.
    rewrite Hsplit. now apply advise_workspace_deleted_from_first.
Qed.

(** On the sample output, deleting key 2 leaves workspaces 1 and 3, and
    deleting key 7 leaves the output as it is. *)
Lemma advise_workspace_deleted_erases_first_witness :
  map get_workspace (workspaces (advise_workspace_deleted (sample_output 2 0%nat) 2))
    = [1; 3] /\
  advise_workspace_deleted (sample_output 2 0%nat) 7 = sample_output 2 0%nat.
Proof.
  destruct (advise_workspace_deleted_erases_first (sample_output 2 0%nat) 2)
    as (_ & Hfirst & _).
  destruct (advise_workspace_deleted_erases_first (sample_output 2 0%nat) 7)
    as (Hmissing & _).
  split.
  - rewrite (Hfirst [sample_workspace 1 false []]
               (sample_workspace 2 false [10%nat; 11%nat])
               [sample_workspace 3 true [10%nat; 11%nat]] eq_refl eq_refl).
    + reflexivity.
    + intros other [<- | []]. cbn. lia.
  - apply Hmissing. cbn. intros info [<- | [<- | [<- | []]]]; cbn; lia.
Defined.

Lemma get_active_workspace_from_no_key (infos : list WorkspaceContent) (key : Z) :
  NoDup (map get_workspace infos) ->
  forall info, In info (advise_workspace_deleted_from infos key) ->
    get_workspace info <> key.
Proof.
  induction infos as [|first rest IH]; cbn; intros Hnd info Hin; [ contradiction | ].
  inversion Hnd as [|k ks Hnotin Hnd']; subst.
  destruct (Z.eqb_spec (get_workspace first) key) as [Heq | Hne].
  - intros Hkey. apply Hnotin. rewrite Heq, <- Hkey. now apply in_map.
  - destruct Hin as [<- | Hin]; [ exact Hne | now apply IH ].
Qed.

(** X10.  Deleting a workspace other than the active one never changes what
    get_active_workspace() answers.  Deleting the active workspace, on an
    output whose workspace keys are all different, leaves the output without
    an active workspace: get_active_workspace() throws from then on. *)
Theorem get_active_workspace_after_delete (self : OutputContent) (key : Z) :
  (key <> active_workspace self ->
   get_active_workspace (advise_workspace_deleted self key)
   = get_active_workspace self) /\
  (key = active_workspace self ->
   NoDup (map get_workspace (workspaces self)) ->
   get_active_workspace (advise_workspace_deleted self key)
   = throws get_active_workspace_error).
Proof.
  unfold get_active_workspace, advise_workspace_deleted. cbn. split.
  - intros Hne. now apply get_active_workspace_from_deleted.
  - intros -> Hnd. apply get_active_workspace_from_missing.
    now apply get_active_workspace_from_no_key.
Qed.

Lemma get_active_workspace_after_delete_witness :
  get_active_workspace (advise_workspace_deleted (sample_output 2 0%nat) 3)
    = returns (sample_workspace 2 false [10%nat; 11%nat]) /\
  get_active_workspace (advise_workspace_deleted (sample_output 2 0%nat) 2)
    = throws get_active_workspace_error.
Proof.
  destruct (get_active_workspace_after_delete (sample_output 2 0%nat) 3)
    as (Hother & _).
  destruct (get_active_workspace_after_delete (sample_output 2 0%nat) 2)
    as (_ & Hactive).
  split.
  - rewrite Hother; [ reflexivity | cbn; lia ].
  - apply Hactive; [ reflexivity | ].
    cbn. repeat constructor; cbn; intuition lia.
Defined.

Section NewWorkspaceProperties.

Variable new_tree : TilingWindowTree.

#[local] Abbreviation new_workspace := (advise_new_workspace new_tree).
#[local] Abbreviation fresh := (WorkspaceContent_new new_tree).

Lemma get_active_workspace_from_app (infos : list WorkspaceContent)
    (last : WorkspaceContent) (active : Z) :
  get_active_workspace_from (infos ++ [last]) active
  = match get_active_workspace_from infos active with
    | returns info => returns info
    | throws _ =>
        if get_workspace last =? active
        then returns last
        else throws get_active_workspace_error
    end.
Proof.
  induction infos as [|first rest IH]; cbn; [ reflexivity | ].
  destruct (get_workspace first =? active); [ reflexivity | exact IH ].
Qed.

(** X11.  advise_new_workspace(key) appends a workspace with that key, a new
    tree and no floating window.  The active workspace found before is still
    the one found afterwards, even when the new workspace has the same key;
    an output that had no active workspace gets one exactly when the new key
    is the active key. *)
Theorem advise_new_workspace_lookup (self : OutputContent) (key : Z) :
  workspaces (new_workspace self key) = workspaces self ++ [fresh key] /\
  get_workspace (fresh key) = key /\
  get_floating_windows (fresh key) = [] /\
  (forall info,
     get_active_workspace self = returns info ->
     get_active_workspace (new_workspace self key) = returns info) /\
  (forall e,
     get_active_workspace self = throws e ->
     get_active_workspace (new_workspace self key)
     = if key =? active_workspace self
       then returns (fresh key)
       else throws get_active_workspace_error).
Proof.
  unfold get_active_workspace, advise_new_workspace. cbn.
  repeat split.
  - intros info Hret. rewrite get_active_workspace_from_app, Hret. reflexivity.
  - intros e Hthrow. rewrite get_active_workspace_from_app, Hthrow. reflexivity.
Qed.

Lemma advise_workspace_deleted_from_app (infos : list WorkspaceContent)
    (last : WorkspaceContent) (key : Z) :
  advise_workspace_deleted_from (infos ++ [last]) key
  = if has_workspace infos key
    then advise_workspace_deleted_from infos key ++ [last]
    else if get_workspace last =? key then infos else infos ++ [last].
Proof.
  unfold has_workspace.
  induction infos as [|first rest IH]; cbn.
  - destruct (get_workspace last =? key); reflexivity.
  - destruct (get_workspace first =? key); cbn; [ reflexivity | ].
    rewrite IH.
    destruct (existsb _ rest); [ reflexivity | ].
    destruct (get_workspace last =? key); reflexivity.
Qed.

(** X12.  Adding a workspace and deleting its key again gives back the
    output as it was when no workspace had the key before.  When one had, it
    is the oldest workspace with the key that is erased, and the new one
    stays at the end of the list; the output is then the one it was only in
    the case that erasing that workspace and appending the new one gives the
    same list again. *)
Theorem advise_new_workspace_then_deleted (self : OutputContent) (key : Z) :
  (has_workspace (workspaces self) key = false ->
   advise_workspace_deleted (new_workspace self key) key = self) /\
  (has_workspace (workspaces self) key = true ->
   workspaces (advise_workspace_deleted (new_workspace self key) key)
   = workspaces (advise_workspace_deleted self key) ++ [fresh key]) /\
  (advise_workspace_deleted (new_workspace self key) key = self
   <-> has_workspace (workspaces self) key = false \/
       workspaces (advise_workspace_deleted self key) ++ [fresh key]
       = workspaces self).
Proof.
  assert (Hmissing : has_workspace (workspaces self) key = false ->
                     advise_workspace_deleted (new_workspace self key) key = self).
  { unfold advise_workspace_deleted, advise_new_workspace. cbn.
    rewrite advise_workspace_deleted_from_app. cbn. rewrite Z.eqb_refl.
    intros Hhas. rewrite Hhas. destruct self; reflexivity. }
  assert (Hpresent : has_workspace (workspaces self) key = true ->
                     workspaces (advise_workspace_deleted (new_workspace self key) key)
                     = workspaces (advise_workspace_deleted self key) ++ [fresh key]).
  { unfold advise_workspace_deleted, advise_new_workspace. cbn.
    rewrite advise_workspace_deleted_from_app.
    intros Hhas. rewrite Hhas. reflexivity. }
  split; [ exact Hmissing | split; [ exact Hpresent | split ] ].
  - intros Hsame.
    destruct (has_workspace (workspaces self) key) eqn:Hhas; [ right | left; reflexivity ].
    rewrite <- (Hpresent eq_refl), Hsame. reflexivity.
  - intros [Hhas | Hlist]; [ exact (Hmissing Hhas) | ].
    destruct (has_workspace (workspaces self) key) eqn:Hhas;
      [ | exact (Hmissing eq_refl) ].
    specialize (Hpresent eq_refl). rewrite Hlist in Hpresent.
    unfold advise_workspace_deleted in *. cbn in Hpresent.
    unfold set_workspaces at 1. cbn. rewrite Hpresent.
    destruct self; reflexivity.
Qed.

End NewWorkspaceProperties.

(** On the sample output: a fourth workspace does not change the active one,
    key 4 round trips, and a second workspace 2 survives the deletion of
    key 2. *)
Lemma advise_new_workspace_lookup_witness :
  get_active_workspace (advise_new_workspace empty_tree (sample_output 2 0%nat) 2)
    = returns (sample_workspace 2 false [10%nat; 11%nat]) /\
  get_active_workspace (advise_new_workspace empty_tree (sample_output 7 0%nat) 7)
    = returns (WorkspaceContent_new empty_tree 7).
Proof.
  destruct (advise_new_workspace_lookup empty_tree (sample_output 2 0%nat) 2)
    as (_ & _ & _ & Hkept & _).
  destruct (advise_new_workspace_lookup empty_tree (sample_output 7 0%nat) 7)
    as (_ & _ & _ & _ & Hnew).
  split.
  - apply Hkept. reflexivity.
  - apply (Hnew get_active_workspace_error). reflexivity.
Defined.

Lemma advise_new_workspace_then_deleted_witness :
  advise_workspace_deleted (advise_new_workspace empty_tree (sample_output 2 0%nat) 4) 4
    = sample_output 2 0%nat /\
  map get_workspace
    (workspaces
       (advise_workspace_deleted
          (advise_new_workspace empty_tree (sample_output 2 0%nat) 2) 2))
    = [1; 3; 2].
Proof.
  destruct (advise_new_workspace_then_deleted empty_tree (sample_output 2 0%nat) 4)
    as (Hfresh & _).
  destruct (advise_new_workspace_then_deleted empty_tree (sample_output 2 0%nat) 2)
    as (_ & Hold & _).
  split.
  - apply Hfresh. reflexivity.
  - rewrite Hold by reflexivity. reflexivity.
Defined.

(** An output whose only workspace is a new workspace 4: adding a workspace 4
    and deleting key 4 gives the same output again, although a workspace had
    the key. *)
Example advise_new_workspace_then_deleted_same_list :
  let self := set_workspaces (sample_output 4 0%nat) [WorkspaceContent_new empty_tree 4] in
  has_workspace (workspaces self) 4 = true /\
  advise_workspace_deleted (advise_new_workspace empty_tree self 4) 4 = self.
Proof. split; reflexivity. Qed.

(** ** Switching the active workspace *)

Lemma has_workspace_false (infos : list WorkspaceContent) (key : Z) :
  has_workspace infos key = false ->
  forall info, In info infos -> get_workspace info <> key.
Proof.
  unfold has_workspace. intros Hhas info Hin Hkey.
  assert (existsb (fun w => get_workspace w =? key) infos = true) as Htrue.
  { apply existsb_exists. exists info. split; [ exact Hin | now apply Z.eqb_eq ]. }
  congruence.
Qed.

Lemma has_workspace_true (infos : list WorkspaceContent) (key : Z) :
  has_workspace infos key = true ->
  exists info, In info infos /\ get_workspace info = key.
Proof.
  unfold has_workspace. intros Hhas.
  apply existsb_exists in Hhas as (info & Hin & Hkey).
  exists info. split; [ exact Hin | now apply Z.eqb_eq ].
Qed.

Lemma last_workspace_with_missing (infos : list WorkspaceContent) (key : Z) :
  has_workspace infos key = false ->
  forall otherwise, last_workspace_with infos key otherwise = otherwise.
Proof.
  unfold has_workspace.
  induction infos as [|first rest IH]; cbn; intros Hhas otherwise; [ reflexivity | ].
  apply orb_false_elim in Hhas as [Hfirst Hrest].
  rewrite Hfirst. now apply IH.
Qed.

Lemma last_workspace_with_found (infos : list WorkspaceContent) (key : Z) :
  forall otherwise found,
    last_workspace_with infos key otherwise = Some found ->
    otherwise = Some found \/ (In found infos /\ get_workspace found = key).
Proof.
  induction infos as [|first rest IH]; cbn; intros otherwise found Hlast;
    [ left; exact Hlast | ].
  apply IH in Hlast as [Hother | (Hin & Hkey)]; [ | right; auto ].
  destruct (Z.eqb_spec (get_workspace first) key) as [Heq | _]; [ | left; exact Hother ].
  injection Hother as <-. right. auto.
Qed.

Lemma last_workspace_with_present (infos : list WorkspaceContent) (key : Z) :
  has_workspace infos key = true ->
  forall otherwise,
    exists found, last_workspace_with infos key otherwise = Some found /\
                  In found infos /\ get_workspace found = key.
Proof.
  unfold has_workspace.
  induction infos as [|first rest IH]; cbn; intros Hhas otherwise; [ discriminate | ].
  destruct (existsb (fun w => get_workspace w =? key) rest) eqn:Hrest.
  - destruct (IH eq_refl (if get_workspace first =? key then Some first else otherwise))
      as (found & Hlast & Hin & Hkey).
    exists found. auto.
  - rewrite orb_false_r in Hhas. rewrite Hhas.
    rewrite last_workspace_with_missing by exact Hrest.
    exists first. repeat split; [ now left | now apply Z.eqb_eq ].
Qed.

Lemma advise_workspace_active_loop_same (infos : list WorkspaceContent) (key : Z) :
  has_workspace infos key = true ->
  forall to from,
    advise_workspace_active_loop infos key key to from = active_loop_return_true.
Proof.
  unfold has_workspace.
  induction infos as [|first rest IH]; cbn; intros Hhas to from; [ discriminate | ].
  rewrite Z.eqb_refl.
  destruct (get_workspace first =? key); [ reflexivity | ].
  now apply IH.
Qed.

Lemma advise_workspace_active_loop_missing (infos : list WorkspaceContent)
    (active key : Z) :
  has_workspace infos key = false ->
  forall to from,
    advise_workspace_active_loop infos active key to from
    = active_loop_end to (last_workspace_with infos active from).
Proof.
  unfold has_workspace.
  induction infos as [|first rest IH]; cbn; intros Hhas to from; [ reflexivity | ].
  apply orb_false_elim in Hhas as [Hfirst Hrest].
  rewrite Hfirst. now apply IH.
Qed.

Lemma advise_workspace_active_loop_other (infos : list WorkspaceContent)
    (active key : Z) :
  key <> active ->
  forall to from,
    advise_workspace_active_loop infos active key to from
    = active_loop_end (last_workspace_with infos key to)
        (last_workspace_with infos active from).
Proof.
  intros Hne.
  induction infos as [|first rest IH]; cbn; intros to from; [ reflexivity | ].
  replace (active =? key) with false by (symmetry; apply Z.eqb_neq; congruence).
  destruct (get_workspace first =? key); apply IH.
Qed.

Section WorkspaceActiveProperties.

Variable TilingWindowTree_is_empty : TilingWindowTree -> bool.

#[local] Abbreviation workspace_active :=
  (advise_workspace_active TilingWindowTree_is_empty).

(** X13.  advise_workspace_active(key), by cases.  When no workspace has the
    key, [to] stays null and is dereferenced.  When the key is the active one
    and a workspace has it, the call returns true and does nothing.
    Otherwise it starts the animation over the width of the output, to the
    left when the active key is the larger one, shows the last workspace that
    has the key, makes the key the active one, so that
    get_active_workspace() finds a workspace with that key, and asks for the
    deletion of the workspace it came from only when that one's tree is
    empty and it has no floating window. *)
Theorem advise_workspace_active_cases (self : OutputContentMembers) (key : Z) :
  let infos := workspaces (content self) in
  let active := active_workspace (content self) in
  (has_workspace infos key = false -> workspace_active self key = None) /\
  (has_workspace infos key = true -> key = active ->
   workspace_active self key = Some (true, self, [])) /\
  (has_workspace infos key = true -> key <> active ->
   exists to,
     last_workspace_with infos key None = Some to /\
     In to infos /\ get_workspace to = key /\
     let from := last_workspace_with infos active None in
     let self' :=
       {| content := set_active_workspace (content self) key;
          area := area self;
          animation_handle := animation_handle self |} in
     workspace_active self key
     = Some (true, self',
             [animator_workspace_move_to (animation_handle self)
                (if active >? key
                 then - geom.width (geom.size (area self))
                 else geom.width (geom.size (area self)))
                from (Some to);
              workspace_show to]
             ++ match from with
                | Some from_workspace =>
                    if TilingWindowTree_is_empty (get_tree from_workspace)
                       && match get_floating_windows from_workspace with
                          | [] => true
                          | _ => false
                          end
                    then [workspace_manager_delete_workspace active]
                    else []
                | None => []
                end) /\
     (forall from_workspace, from = Some from_workspace ->
        In from_workspace infos /\ get_workspace from_workspace = active) /\
     (has_workspace infos active = false -> from = None) /\
     exists found,
       get_active_workspace (content self') = returns found /\
       get_workspace found = key).
Proof.
  cbn zeta. unfold advise_workspace_active.
  split; [ | split ].
  - intros Hhas. rewrite advise_workspace_active_loop_missing by exact Hhas.
    reflexivity.
  - intros Hhas ->. rewrite advise_workspace_active_loop_same by exact Hhas.
    reflexivity.
  - intros Hhas Hne.
    rewrite advise_workspace_active_loop_other by exact Hne.
    destruct (last_workspace_with_present _ _ Hhas None)
      as (to & Hto & Hin & Hkey).
    exists to. rewrite Hto.
    split; [ reflexivity | ]. split; [ exact Hin | ]. split; [ exact Hkey | ].
    assert (Hfrom : forall f,
              last_workspace_with (workspaces (content self))
                (active_workspace (content self)) None = Some f ->
              In f (workspaces (content self)) /\
              get_workspace f = active_workspace (content self)).
    { intros f Hf. apply last_workspace_with_found in Hf as [Habs | Hf];
        [ discriminate | exact Hf ]. }
    split; [ | split; [ exact Hfrom | split ] ].
    + destruct (last_workspace_with (workspaces (content self))
                  (active_workspace (content self)) None) as [f|] eqn:Ef;
        [ | reflexivity ].
      destruct (Hfrom f eq_refl) as (_ & Hfkey). rewrite Hfkey. reflexivity.
    + intros Hnone. now apply last_workspace_with_missing.
    + destruct (get_active_workspace_from_present (workspaces (content self)) key)
        as (found & Hfound).
      { exists to. auto. }
      exists found. split; [ exact Hfound | ].
      destruct (get_active_workspace_from_found _ _ _ Hfound) as (_ & _ & _ & Hk & _).
      exact Hk.
Qed.

End WorkspaceActiveProperties.

(** The sample output, 1920 wide, with workspace 2 active: switching to
    workspace 3 starts the animation with a travel distance of 1920, shows
    workspace 3 and keeps workspace 2, whose tree is not empty; switching to
    workspace 2 does nothing; switching to workspace 7, which does not
    exist, fails. *)
Lemma advise_workspace_active_cases_witness :
  let is_empty := fun _ : TilingWindowTree => false in
  advise_workspace_active is_empty (sample_output_members 2) 7 = None /\
  advise_workspace_active is_empty (sample_output_members 2) 2
    = Some (true, sample_output_members 2, []) /\
  exists self' effects,
    advise_workspace_active is_empty (sample_output_members 2) 3
      = Some (true, self', effects) /\
    active_workspace (content self') = 3 /\
    effects
    = [animator_workspace_move_to 1 1920
         (Some (sample_workspace 2 false [10%nat; 11%nat]))
         (Some (sample_workspace 3 true [10%nat; 11%nat]));
       workspace_show (sample_workspace 3 true [10%nat; 11%nat])].
Proof.
  cbn zeta.
  destruct (advise_workspace_active_cases (fun _ => false) (sample_output_members 2) 7)
    as (Hmissing & _).
  destruct (advise_workspace_active_cases (fun _ => false) (sample_output_members 2) 2)
    as (_ & Hsame & _).
  destruct (advise_workspace_active_cases (fun _ => false) (sample_output_members 2) 3)
    as (_ & _ & Hother).
  split; [ apply Hmissing; reflexivity | ].
  split; [ apply Hsame; reflexivity | ].
  destruct (Hother eq_refl ltac:(cbn; lia)) as (to & Hto & _ & _ & Hresult & _).
  injection Hto as <-.
  eexists. eexists. split; [ exact Hresult | ]. split; reflexivity.
Defined.

(** ** New windows and their metadata *)

Section AdviseNewWindowProperties.

Variable TilingWindowTree_advise_new_window : TilingWindowTree -> WindowInfo -> LeafNode.

#[local] Abbreviation new_window :=
  (advise_new_window TilingWindowTree_advise_new_window).

(** X14.  advise_new_window by window type.  A tiled window gets metadata of
    type tiled that holds the leaf the active tree made for it, so that
    get_tiling_node() is not null and confirm_placement_on_display on this
    metadata returns the placement it is given; without an active workspace
    the call throws.  A window of type other gets metadata without a tiling
    node, and is selected first when its state is attached.  A floating
    window gets no metadata at all: the call returns null and stores no
    userdata on the window. *)
Theorem advise_new_window_metadata (self : OutputContent) (window_info : WindowInfo) :
  (forall workspace,
     get_active_workspace self = returns workspace ->
     exists metadata,
       new_window self window_info tiled
       = returns (Some metadata,
                  [new_window_tree_advise_new_window window_info;
                   new_window_modify_window (info_window window_info) metadata]) /\
       type metadata = tiled /\
       get_window metadata = info_window window_info /\
       get_tiling_node metadata
       = Some (TilingWindowTree_advise_new_window (get_tree workspace) window_info) /\
       forall output new_state new_placement,
         confirm_placement_on_display output metadata new_state new_placement
         = Some new_placement) /\
  (forall e,
     get_active_workspace self = throws e ->
     new_window self window_info tiled = throws e) /\
  (exists metadata,
     new_window self window_info other
     = returns (Some metadata,
                (if MirWindowState_eqb (info_state window_info) mir_window_state_attached
                 then [new_window_select_active_window (info_window window_info)]
                 else [])
                ++ [new_window_modify_window (info_window window_info) metadata]) /\
     type metadata = other /\
     get_window metadata = info_window window_info /\
     get_tiling_node metadata = None) /\
  (exists effects,
     new_window self window_info floating = returns (None, effects) /\
     forall w userdata, ~ In (new_window_modify_window w userdata) effects).
Proof.
  unfold advise_new_window, get_active_tree.
  split; [ | split; [ | split ] ].
  - intros workspace Hws. rewrite Hws.
    eexists. split; [ reflexivity | ].
    repeat split.
  - intros e Hws. rewrite Hws. reflexivity.
  - eexists. split; [ reflexivity | ]. repeat split.
  - eexists. split; [ reflexivity | ].
    intros w userdata [Habs | [Habs | []]]; discriminate.
Qed.

End AdviseNewWindowProperties.

(** On the sample output a new tiled window 5 gets metadata that holds its
    leaf; with no active workspace the call throws. *)
Lemma advise_new_window_metadata_witness :
  (exists metadata effects,
     advise_new_window sample_advise_new_window (sample_output 2 0%nat)
       sample_window_info tiled = returns (Some metadata, effects) /\
     option_map window (get_tiling_node metadata) = Some 5%nat) /\
  advise_new_window sample_advise_new_window (sample_output 7 0%nat)
    sample_window_info tiled = throws get_active_workspace_error.
Proof.
  destruct (advise_new_window_metadata sample_advise_new_window
              (sample_output 2 0%nat) sample_window_info) as (Htiled & _).
  destruct (advise_new_window_metadata sample_advise_new_window
              (sample_output 7 0%nat) sample_window_info) as (_ & Hthrows & _).
  split.
  - destruct (Htiled (sample_workspace 2 false [10%nat; 11%nat]) eq_refl)
      as (metadata & Hret & _ & _ & Hnode & _).
    exists metadata. eexists. split; [ exact Hret | ].
    rewrite Hnode. reflexivity.
  - apply Hthrows. reflexivity.
Defined.

(** ** Focus *)

Section FocusProperties.

Variable Window_top_left : Window -> geom.Point.
Variable Window_size : Window -> geom.Size.
Variable Rectangle_contains : geom.Rectangle -> geom.Point -> bool.

(** X15.  advise_focus_gained makes the window of the metadata the active
    window for every window type, the unsupported one included, and changes
    nothing else of the output; it fails only on a tiled window without a
    tiling node.  From then on select_window_from_point, at any point, does
    not select that window. *)
Theorem advise_focus_gained_then_select (self : OutputContent) (metadata : WindowMetadata) :
  (advise_focus_gained self metadata = None
   <-> type metadata = tiled /\ tiling_node metadata = None) /\
  (forall self' focus_effects,
     advise_focus_gained self metadata = Some (self', focus_effects) ->
     self' = set_active_window self (get_window metadata) /\
     active_window self' = get_window metadata /\
     workspaces self' = workspaces self /\
     active_workspace self' = active_workspace self /\
     forall x y effects,
       OutputContent_select_window_from_point
         Window_top_left Window_size Rectangle_contains self' x y = returns effects ->
       ~ In (tools_select_active_window (get_window metadata)) effects).
Proof.
  unfold advise_focus_gained, get_tiling_node.
  split.
  - destruct (type metadata); [ | split; [ discriminate | intros [? _]; discriminate ].. ].
    destruct (tiling_node metadata); split; try discriminate; auto.
    intros [_ Habs]. discriminate.
  - intros self' focus_effects Hret.
    assert (Hself : self' = set_active_window self (get_window metadata)).
    { destruct (type metadata); [ destruct (tiling_node metadata) | | ];
        congruence. }
    subst self'. repeat split.
    intros x y effects Hsel Hin.
    unfold OutputContent_select_window_from_point in Hsel.
    destruct (get_active_workspace _) as [workspace|e]; [ | discriminate ].
    injection Hsel as <-.
    pose proof (select_in_shape Window_top_left Window_size Rectangle_contains
                  (set_active_window self (get_window metadata)) workspace x y)
      as Hshape.
    cbn zeta in Hshape. cbn [active_window set_active_window] in Hshape.
    destruct Hshape as [Hs | [Hs | (w & Hne & [Hs | Hs])]];
      rewrite Hs in Hin; cbn in Hin;
      decompose [or] Hin; try discriminate; try contradiction.
    all: match goal with
         | Heq : tools_select_active_window _ = tools_select_active_window _ |- _ =>
             injection Heq as Heq; contradiction
         end.
Qed.

End FocusProperties.

(** On the sample output, once the floating window 11 has the focus a click
    at (320,320), under window 11 alone, selects nothing. *)
Lemma advise_focus_gained_then_select_witness :
  exists self',
    advise_focus_gained (sample_output 2 10%nat)
      {| type := floating; get_window := 11%nat; tiling_node := None |}
    = Some (self', [focus_floating_advise_focus_gained 11%nat]) /\
    sample_select_window_from_point self' 320 320 = returns [] /\
    ~ In (tools_select_active_window 11%nat) [].
Proof.
  destruct (advise_focus_gained_then_select
              sample_top_left sample_size Rectangle_contains_point
              (sample_output 2 10%nat)
              {| type := floating; get_window := 11%nat; tiling_node := None |})
    as (_ & Hgained).
  destruct (Hgained _ _ eq_refl) as (_ & _ & _ & _ & Hnever).
  eexists. split; [ reflexivity | ].
  split; [ reflexivity | ].
  apply (Hnever 320 320 []). reflexivity.
Defined.

(** ** WindowMetadata *)

(** X16.  toggle_pin_to_desktop changes the pin of a floating window and of
    no other window: on tiled and other windows it changes nothing, on a
    floating window it inverts is_pinned and leaves the rest alone, and
    toggling twice gives back the metadata as it was. *)
Theorem toggle_pin_to_desktop_floating_only (self : WindowMetadataMembers) :
  toggle_pin_to_desktop (toggle_pin_to_desktop self) = self /\
  (type (metadata self) <> floating -> toggle_pin_to_desktop self = self) /\
  (type (metadata self) = floating ->
   is_pinned (toggle_pin_to_desktop self) = negb (is_pinned self)) /\
  metadata (toggle_pin_to_desktop self) = metadata self /\
  md_workspace (toggle_pin_to_desktop self) = md_workspace self /\
  restore_state (toggle_pin_to_desktop self) = restore_state self /\
  md_animation_handle (toggle_pin_to_desktop self) = md_animation_handle self.
Proof.
  destruct self as [[ty w node] ws rs pinned handle].
  unfold toggle_pin_to_desktop; cbn.
  destruct ty; cbn; repeat split; try reflexivity; try congruence.
  rewrite negb_involutive. reflexivity.
Qed.

Lemma toggle_pin_to_desktop_floating_only_witness :
  is_pinned (toggle_pin_to_desktop (sample_floating_members 0%nat)) = true /\
  toggle_pin_to_desktop
    {| metadata := tiled_metadata;
       md_workspace := None;
       restore_state := mir_window_state_restored;
       is_pinned := false;
       md_animation_handle := 0 |}
  = {| metadata := tiled_metadata;
       md_workspace := None;
       restore_state := mir_window_state_restored;
       is_pinned := false;
       md_animation_handle := 0 |}.
Proof.
  split.
  - destruct (toggle_pin_to_desktop_floating_only (sample_floating_members 0%nat))
      as (_ & _ & Hfloating & _).
    rewrite Hfloating; reflexivity.
  - destruct (toggle_pin_to_desktop_floating_only
                {| metadata := tiled_metadata;
                   md_workspace := None;
                   restore_state := mir_window_state_restored;
                   is_pinned := false;
                   md_animation_handle := 0 |})
      as (_ & Htiled & _).
    apply Htiled. cbn. discriminate.
Defined.

(** X17.  get_output() checks for a missing workspace and answers the null
    pointer, is_focused() does not: on metadata without a workspace, as the
    two-argument constructor makes it, is_focused() dereferences the null
    workspace.  With a workspace, is_focused() is false when the workspace
    has no output, and otherwise tells whether the output's active window is
    the window of the metadata. *)
Theorem is_focused_needs_workspace (self : WindowMetadataMembers) :
  (is_focused self = None <-> md_workspace self = None) /\
  (md_workspace self = None -> get_output self = None) /\
  (forall output,
     get_output self = Some output ->
     is_focused self
     = Some (active_window output =? get_window (metadata self))%nat) /\
  (md_workspace self <> None -> get_output self = None ->
   is_focused self = Some false) /\
  (forall workspace,
     is_focused (set_workspace self (Some workspace)) <> None).
Proof.
  unfold is_focused, get_output, set_workspace; cbn.
  destruct (md_workspace self) as [link|].
  - destruct (link_get_output link) as [output|] eqn:Eout.
    + repeat split; try discriminate.
      * intros output' Hout. injection Hout as <-. reflexivity.
      * intros workspace. destruct (link_get_output workspace); discriminate.
    + repeat split; try discriminate.
      intros workspace. destruct (link_get_output workspace); discriminate.
  - repeat split; try discriminate; try congruence.
    intros workspace. destruct (link_get_output workspace); discriminate.
Qed.

(** The floating window 10 on the sample output is focused when the
    output's active window is 10, and not when it is 11. *)
Lemma is_focused_needs_workspace_witness :
  is_focused (sample_floating_members 10%nat) = Some true /\
  is_focused (sample_floating_members 11%nat) = Some false /\
  is_focused (set_workspace (sample_floating_members 10%nat) None) = None.
Proof.
  destruct (is_focused_needs_workspace (sample_floating_members 10%nat))
    as (_ & _ & Hten & _).
  destruct (is_focused_needs_workspace (sample_floating_members 11%nat))
    as (_ & _ & Heleven & _).
  destruct (is_focused_needs_workspace
              (set_workspace (sample_floating_members 10%nat) None))
    as (Hnull & _).
  split; [ apply (Hten (sample_output 2 10%nat)); reflexivity | ].
  split; [ apply (Heleven (sample_output 2 11%nat)); reflexivity | ].
  apply Hnull. reflexivity.
Defined.

(** ** Allocating a position *)

Section AllocatePositionProperties.

Variable WindowSpecification : Type.
Variable is_tileable : WindowSpecification -> bool.
Variable TilingWindowTree_allocate_position :
  TilingWindowTree -> WindowSpecification -> WindowSpecification.
Variable TilingWindowTree_advise_new_window : TilingWindowTree -> WindowInfo -> LeafNode.

#[local] Abbreviation allocate :=
  (allocate_position WindowSpecification is_tileable TilingWindowTree_allocate_position).

(** X18.  allocate_position never answers the floating type.  A
    specification that is not tileable is left as it is, with type other,
    also on an output without an active workspace; a tileable one goes to the
    active tree, with type tiled, and throws without an active workspace.
    advise_new_window, called on the same output with a type that
    allocate_position returned, always makes metadata of that type. *)
Theorem allocate_position_type (self : OutputContent)
    (requested_specification : WindowSpecification) :
  (is_tileable requested_specification = false ->
   allocate self requested_specification = returns (other, requested_specification)) /\
  (is_tileable requested_specification = true ->
   forall workspace,
     get_active_workspace self = returns workspace ->
     allocate self requested_specification
     = returns (tiled,
                TilingWindowTree_allocate_position (get_tree workspace)
                  requested_specification)) /\
  (is_tileable requested_specification = true ->
   forall e,
     get_active_workspace self = throws e ->
     allocate self requested_specification = throws e) /\
  (forall ty specification,
     allocate self requested_specification = returns (ty, specification) ->
     ty <> floating /\
     forall window_info,
     exists metadata effects,
       advise_new_window TilingWindowTree_advise_new_window self window_info ty
       = returns (Some metadata, effects) /\
       type metadata = ty).
Proof.
  unfold allocate_position, get_active_tree.
  split; [ | split; [ | split ] ].
  - intros Hno. rewrite Hno. reflexivity.
  - intros Hyes workspace Hws. rewrite Hyes, Hws. reflexivity.
  - intros Hyes e Hws. rewrite Hyes, Hws. reflexivity.
  - intros ty specification.
    destruct (is_tileable requested_specification); cbn.
    + destruct (get_active_workspace self) as [workspace|e] eqn:Hws;
        [ | discriminate ].
      intros Hret. injection Hret as <- _.
      split; [ discriminate | ]. intros window_info.
      unfold advise_new_window, get_active_tree. rewrite Hws.
      eexists. eexists. split; reflexivity.
    + intros Hret. injection Hret as <- _.
      split; [ discriminate | ]. intros window_info.
      eexists. eexists. split; reflexivity.
Qed.

End AllocatePositionProperties.

(** With specifications that are numbers, tileable when positive: on the
    sample output 3 is tiled and 0 is other, and without an active
    workspace 3 throws while 0 is still other. *)
Lemma allocate_position_type_witness :
  allocate_position Z (fun z => 0 <? z) (fun _ z => z + 1) (sample_output 2 0%nat) 3
    = returns (tiled, 4) /\
  allocate_position Z (fun z => 0 <? z) (fun _ z => z + 1) (sample_output 7 0%nat) 3
    = throws get_active_workspace_error /\
  allocate_position Z (fun z => 0 <? z) (fun _ z => z + 1) (sample_output 7 0%nat) 0
    = returns (other, 0).
Proof.
  destruct (allocate_position_type Z (fun z => 0 <? z) (fun _ z => z + 1)
              sample_advise_new_window (sample_output 2 0%nat) 3)
    as (_ & Htiled & _).
  destruct (allocate_position_type Z (fun z => 0 <? z) (fun _ z => z + 1)
              sample_advise_new_window (sample_output 7 0%nat) 3)
    as (_ & _ & Hthrows & _).
  destruct (allocate_position_type Z (fun z => 0 <? z) (fun _ z => z + 1)
              sample_advise_new_window (sample_output 7 0%nat) 0)
    as (Hother & _).
  split; [ apply (Htiled eq_refl (sample_workspace 2 false [10%nat; 11%nat])); reflexivity | ].
  split; [ apply (Hthrows eq_refl); reflexivity | apply Hother; reflexivity ].
Defined.

(** ** Showing twice *)

Section ShowTwice.

Context {Host : Type} `{TilingInterface Host}.

(** X19.  A second show() before the commit cancels the first: the snapshot
    was taken by the first, so the second stages no state.  On a host that
    tracks window states, a leaf that is hidden, committed, shown twice and
    committed is still hidden. *)
Theorem show_twice_stages_nothing (p : MirWindowState -> bool)
    (self : LeafNode) (W : World Host) :
  next_state (show (show self)) = None /\
  before_shown_state (show (show self)) = None /\
  (tracks_state p ->
   let hidden := commit_changes (hide self W) W in
   let shown := commit_changes (show (show (fst hidden))) (snd hidden) in
   next_state (show (fst hidden)) = Some (get_state (node_interface W) (window self)) /\
   get_state (node_interface (snd hidden)) (window self) = mir_window_state_hidden /\
   get_state (node_interface (snd shown)) (window self) = mir_window_state_hidden).
Proof.
  split; [ reflexivity | split; [ reflexivity | ] ].
  intros Hlaws. cbn zeta.
  pose proof (commit_changes_get_state p Hlaws (hide self W) W) as Hhidden.
  destruct (commit_changes_fields (hide self W) W) as (Hw & _ & _ & _ & Hb & _).
  change (window (hide self W)) with (window self) in Hhidden, Hw.
  change (next_state (hide self W)) with (Some mir_window_state_hidden) in Hhidden.
  change (before_shown_state (hide self W))
    with (Some (get_state (node_interface W) (window self))) in Hb.
  set (hidden := commit_changes (hide self W) W) in *.
  pose proof (commit_changes_get_state p Hlaws (show (show (fst hidden))) (snd hidden))
    as Hshown.
  change (window (show (show (fst hidden)))) with (window (fst hidden)) in Hshown.
  change (next_state (show (show (fst hidden)))) with (@None MirWindowState) in Hshown.
  rewrite Hw in Hshown.
  repeat split; [ | exact Hhidden | congruence ].
  change (next_state (show (fst hidden))) with (before_shown_state (fst hidden)).
  exact Hb.
Qed.

End ShowTwice.

Lemma show_twice_stages_nothing_witness :
  let hidden := commit_changes (hide left_leaf sample_world) sample_world in
  get_state (node_interface (snd (commit_changes (show (fst hidden)) (snd hidden)))) 1%nat
    = mir_window_state_restored /\
  get_state
    (node_interface (snd (commit_changes (show (show (fst hidden))) (snd hidden)))) 1%nat
    = mir_window_state_hidden.
Proof.
  destruct (show_twice_stages_nothing maximized_only left_leaf sample_world)
    as (_ & _ & Htwice).
  destruct (Htwice StateTable_tracks_state) as (_ & _ & Hstill).
  split; [ reflexivity | exact Hstill ].
Defined.
